(** * Pix-Ruom: storage abstraction and file-preparation pipeline

    A shallow embedding of the JavaScript sources
      - [utils/fileManager] (class [FileManager]),
      - [utils/storage/TelegramStorage.js] (class [TelegramStorage]),
      - [utils/config/storageServices.js] ([STORAGE_SERVICES],
        [getRequiredFields], [validateStorageConfig]),
    followed by the properties established about them.

    Part I translates the code, module by module, and fixes the
    vocabulary of the properties; Part II proves the properties.

    Conventions of the embedding.
    - A JavaScript string is a [string], the bytes of its UTF-8 text; the
      character-level algorithms (regular-expression replaces, [split],
      [trim]) run on its list of bytes.  [toLowerCase] maps the letters
      [A] to [Z] and leaves every other byte as it is, so it is the
      JavaScript function on ASCII text; a property that depends on the
      lower-cased form of other letters is stated for ASCII text.
    - A JavaScript number that the code only compares is a rational [Q]
      (every finite double is one); counters and sizes are [N] or [Z].
    - Code that can throw returns a [Result]; code that touches
      [localStorage], the console or the network threads a [World]. *)

From Stdlib Require Import ZArith NArith QArith Ascii String List Bool Lia.
From Stdlib Require Import Sorting.Permutation Sorting.Sorted.
From Stdlib Require Import Numbers.DecimalString.
From stdpp Require Import base option list gmap strings.

Local Open Scope string_scope.
Local Open Scope list_scope.
Set Warnings "-register-all".

(* ===================================================================== *)
(** * Part I: the embedding                                              *)
(* ===================================================================== *)

(** ** JavaScript strings *)
Module JsString.

Definition chars (s : string) : list ascii := list_ascii_of_string s.
Definition str (l : list ascii) : string := string_of_list_ascii l.

Definition isUpper (c : ascii) : bool :=
  let n := N_of_ascii c in (65 <=? n)%N && (n <=? 90)%N.
Definition isLower (c : ascii) : bool :=
  let n := N_of_ascii c in (97 <=? n)%N && (n <=? 122)%N.
Definition isDigit (c : ascii) : bool :=
  let n := N_of_ascii c in (48 <=? n)%N && (n <=? 57)%N.

Definition lowerChar (c : ascii) : ascii :=
  if isUpper c then ascii_of_N (N_of_ascii c + 32) else c.

(** [s.toLowerCase()], on ASCII text. *)
Definition toLowerCase (s : string) : string := str (map lowerChar (chars s)).

(** [s.split(sep)] for a one-character separator: never an empty array. *)
Fixpoint splitChars (sep : ascii) (l : list ascii) : list (list ascii) :=
  match l with
  | [] => [[]]
  | c :: r =>
      if Ascii.eqb c sep then [] :: splitChars sep r
      else match splitChars sep r with
           | [] => [[c]]
           | seg :: segs => (c :: seg) :: segs
           end
  end.

Definition split (sep : ascii) (s : string) : list string :=
  map str (splitChars sep (chars s)).

(** [arr[0]] and [arr.pop()] on the array a [split] returns. *)
Definition first (segs : list string) : string := hd "" segs.
Definition pop (segs : list string) : string := List.last segs "".

Fixpoint isPrefix (p l : list ascii) : bool :=
  match p, l with
  | [], _ => true
  | _ :: _, [] => false
  | a :: p', b :: l' => Ascii.eqb a b && isPrefix p' l'
  end.

(** [s.startsWith(p)] *)
Definition startsWith (s p : string) : bool := isPrefix (chars p) (chars s).

(** [s.replace(pat, rep)] with a string pattern: the first occurrence
    only.  The replacements used by the code are digit strings, so the
    [$]-patterns of the replacement text never apply. *)
Fixpoint replaceFirstChars (pat rep l : list ascii) : list ascii :=
  if isPrefix pat l then rep ++ skipn (List.length pat) l
  else match l with
       | [] => []
       | c :: r => c :: replaceFirstChars pat rep r
       end.

Definition replaceFirst (s pat rep : string) : string :=
  str (replaceFirstChars (chars pat) (chars rep) (chars s)).

(** The text starts with [c]. *)
Definition headIs (c : ascii) (l : list ascii) : bool :=
  match l with
  | y :: _ => Ascii.eqb y c
  | [] => false
  end.

(** [s.replace(/c+/g, 'c')]: every run of [c] becomes one [c]. *)
Fixpoint collapseRuns (c : ascii) (l : list ascii) : list ascii :=
  match l with
  | [] => []
  | x :: r =>
      if Ascii.eqb x c && headIs c r
      then collapseRuns c r
      else x :: collapseRuns c r
  end.

Fixpoint dropWhileChar (c : ascii) (l : list ascii) : list ascii :=
  match l with
  | [] => []
  | x :: r => if Ascii.eqb x c then dropWhileChar c r else l
  end.

(** [s.replace(/^c+|c+$/g, '')] *)
Definition trimRuns (c : ascii) (l : list ascii) : list ascii :=
  rev (dropWhileChar c (rev (dropWhileChar c l))).

(** [s.replace(/^c/, '')] and [s.replace(/c$/, '')] *)
Definition dropLeading (c : ascii) (l : list ascii) : list ascii :=
  match l with
  | x :: r => if Ascii.eqb x c then r else l
  | [] => []
  end.
Definition dropTrailing (c : ascii) (l : list ascii) : list ascii :=
  rev (dropLeading c (rev l)).

(** [s.padStart(n, c)] for a one-character filler. *)
Definition padStart (n : nat) (c : ascii) (s : string) : string :=
  str (repeat c (n - String.length s) ++ chars s).

(** [s.substring(i, j)] for [i <= j]. *)
Definition substring (i j : nat) (s : string) : string :=
  str (firstn (j - i) (skipn i (chars s))).

(** [String(n)] and [n.toString()] for an integer. *)
Definition ofN (n : N) : string := NilZero.string_of_uint (N.to_uint n).
Definition ofZ (z : Z) : string := NilZero.string_of_int (Z.to_int z).

(** The white space and line terminators that [trim] strips, each as the
    bytes of its UTF-8 encoding: U+0009 to U+000D, U+0020, U+00A0,
    U+1680, U+2000 to U+200A, U+2028, U+2029, U+202F, U+205F, U+3000 and
    U+FEFF. *)
Definition whiteSpace : list (list ascii) :=
  map (map ascii_of_N)
    [ [9]; [10]; [11]; [12]; [13]; [32]; [194; 160]; [225; 154; 128];
      [226; 128; 128]; [226; 128; 129]; [226; 128; 130]; [226; 128; 131];
      [226; 128; 132]; [226; 128; 133]; [226; 128; 134]; [226; 128; 135];
      [226; 128; 136]; [226; 128; 137]; [226; 128; 138];
      [226; 128; 168]; [226; 128; 169]; [226; 128; 175]; [226; 129; 159];
      [227; 128; 128]; [239; 187; 191] ]%N.

(** Strips from the front of [l] every leading occurrence of one of the
    [patterns]; [fuel] bounds the number of occurrences. *)
Fixpoint dropLeadingAny (patterns : list (list ascii)) (fuel : nat)
    (l : list ascii) : list ascii :=
  match fuel with
  | O => l
  | S fuel' =>
      match List.find (fun pat => isPrefix pat l) patterns with
      | Some pat => dropLeadingAny patterns fuel' (skipn (List.length pat) l)
      | None => l
      end
  end.

(** [s.trim()] *)
Definition trim (s : string) : string :=
  let l := chars s in
  let n := List.length l in
  str (rev (dropLeadingAny (map (@rev ascii) whiteSpace) n
              (rev (dropLeadingAny whiteSpace n l)))).

(** A string in boolean position: only the empty string is falsy. *)
Definition truthy (s : string) : bool := negb (String.eqb s "").

End JsString.

(** ** Results of code that can throw *)
Inductive Result (A : Type) : Type :=
| Ok (a : A)
| Throw (message : string).
Arguments Ok {A} a.
Arguments Throw {A} message.

(** ** [FileManager] *)
Module FileManager.
Import JsString.

(** [this.config.nameRule].  The [switch] of [_generateFilename] sends
    every value other than ['timestamp'] and ['random'] to the branch of
    ['original']. *)
Inductive NameRule := timestamp | random | original.

(** [this.config] *)
Record Config := {
  uploadPath : string;
  nameRule : NameRule;
  allowedTypes : list string;
  maxFileSize : Q
}.

(** The fields of a [File] that the manager reads.  [content] stands for
    the payload, which the manager never inspects. *)
Record File := {
  name : string;
  type : string;
  size : N;
  content : N
}.

(** The messages the manager reports.
    - [SizeLimitMessage limit] is the template literal
      [`文件大小超过限制(${limit}MB)`],
    - [UnsupportedFormatMessage] is ['不支持的文件格式'],
    - [ErrorText m] is the [message] of a caught error. *)
Inductive Message :=
| SizeLimitMessage (limit : Q)
| UnsupportedFormatMessage
| ErrorText (m : string).

(** [true | message] *)
Inductive Validation := Valid | Invalid (m : Message).

Definition includes (l : list string) (s : string) : bool :=
  existsb (String.eqb s) l.

(** [file.size / (1024 * 1024)].  The division of an integer below 2^53
    by a power of two is exact in double arithmetic. *)
Definition fileSizeMB (file : File) : Q :=
  inject_Z (Z.of_N (size file)) / inject_Z (1024 * 1024).

(** [a > b] on numbers *)
Definition gtb (a b : Q) : bool := negb (Qle_bool a b).

Definition validateFile (cfg : Config) (file : File) : Validation :=
  if gtb (fileSizeMB file) (maxFileSize cfg) then
    Invalid (SizeLimitMessage (maxFileSize cfg))
  else if negb (includes (allowedTypes cfg) (type file)) then
    Invalid UnsupportedFormatMessage
  else Valid.

(** [{ file, error }] *)
Record Processed := {
  file : option File;
  error : option Message
}.

(** [processFile]: the result paired with the list of files handed to
    [this.imageCompressor.compress], in call order.  The collaborator
    either resolves to a file or rejects with an error message. *)
Definition processFile (compress : File -> Result File)
    (cfg : Config) (f : File) : Processed * list File :=
  match validateFile cfg f with
  | Invalid m => ({| file := None; error := Some m |}, [])
  | Valid =>
      if startsWith (type f) "image/" then
        match compress f with
        | Ok compressedFile =>
            ({| file := Some compressedFile; error := None |}, [f])
        | Throw m =>
            ({| file := None; error := Some (ErrorText m) |}, [f])
        end
      else ({| file := Some f; error := None |}, [])
  end.

(** What the manager reads from its environment: the parts of
    [new Date()] it uses, [Date.now()], and the digits that
    [Math.random().toString(36)] prints after ["0."] (none when it prints
    ["0"]). *)
Record Environment := {
  getFullYear : Z;
  getMonth : N;
  getDate : N;
  now : N;
  randomDigits : list nat
}.

(** The base-36 digits of a fraction [0 <= q < 1], as far as [fuel]
    reaches.  [toString(36)] prints the expansion in full when it is this
    short: 0.5 is 18/36 and prints as ["0.i"]. *)
Fixpoint fractionDigits36 (fuel : nat) (q : Q) : list nat :=
  match fuel with
  | O => []
  | S fuel' =>
      if Qeq_bool q 0 then []
      else
        let scaled := (q * 36)%Q in
        let digit := (Qnum scaled / Zpos (Qden scaled))%Z in
        Z.to_nat digit :: fractionDigits36 fuel' (scaled - inject_Z digit)%Q
  end.

Definition base36 : list ascii := chars "0123456789abcdefghijklmnopqrstuvwxyz".
Definition digitChar (d : nat) : ascii := nth d base36 "0"%char.

(** [Math.random().toString(36)] *)
Definition randomToString36 (digits : list nat) : string :=
  match digits with
  | [] => "0"
  | _ => str (chars "0." ++ map digitChar digits)
  end.

Definition isNameChar (c : ascii) : bool :=
  isLower c || isUpper c || isDigit c
  || Ascii.eqb c "-" || Ascii.eqb c "_" || Ascii.eqb c ".".

(** [.replace(/[^a-zA-Z0-9-_.]/g, '-').replace(/-+/g, '-')
     .replace(/^-+|-+$/g, '')] *)
Definition sanitizeChars (l : list ascii) : list ascii :=
  trimRuns "-" (collapseRuns "-"
    (map (fun c => if isNameChar c then c else "-"%char) l)).
Definition sanitize (s : string) : string := str (sanitizeChars (chars s)).

Definition _generateFilename (rule : NameRule) (clock : Environment)
    (originalFilename : string) : string :=
  let ext := toLowerCase (pop (split "." originalFilename)) in
  let basename :=
    match rule with
    | timestamp => ofN (now clock)
    | random => substring 2 10 (randomToString36 (randomDigits clock))
    | original => sanitize (first (split "." originalFilename))
    end in
  basename +:+ "." +:+ ext.

Definition _normalizePath (path : string) : string :=
  str (dropTrailing "/" (dropLeading "/" (collapseRuns "/" (chars path)))).

Definition generatePath (cfg : Config) (clock : Environment)
    (filename : string) : string :=
  let path :=
    replaceFirst
      (replaceFirst
        (replaceFirst (uploadPath cfg) "{year}" (ofZ (getFullYear clock)))
        "{month}" (padStart 2 "0" (ofN (getMonth clock + 1))))
      "{day}" (padStart 2 "0" (ofN (getDate clock))) in
  let processedFilename := _generateFilename (nameRule cfg) clock filename in
  _normalizePath (path +:+ "/" +:+ processedFilename).

End FileManager.

(** ** [TelegramStorage] *)
Module TelegramStorage.
Import JsString.

(** An entry of the local index, as [upload] pushes it.  [lastModified]
    is the instant its ISO-8601 text denotes, in milliseconds since the
    epoch ([new Date(item.lastModified)]). *)
Module Item.
Record t := {
  key : string;
  url : string;
  fileId : string;
  filePath : string;
  lastModified : Z;
  size : N
}.
End Item.

(** An element of the array [listObjects] returns. *)
Module Entry.
Record t := {
  key : string;
  url : string;
  lastModified : Z;
  size : N
}.
End Entry.

(** What [localStorage] holds under [this.storageKey]: nothing (or the
    empty text), text that [JSON.parse] rejects, text that it parses to
    a value that is not an array ([null] or not: a number, a string, a
    boolean, an object), or the text of an array of index records, which
    is the only thing the adapter ever writes there.  [JSON.stringify]
    followed by [JSON.parse] gives back the records as they were.  An
    array with elements that are not such records is outside the
    embedding. *)
Inductive Stored :=
| Absent
| Corrupt
| NotArray (null : bool)
| Saved (index : list Item.t).

(** What the adapter does to the outside: a request to the Bot API
    (issued by [upload], [_getFilePath], [getFileContent] and
    [testConnection] only) or a line on the console. *)
Inductive Effect :=
| Fetch (request : string)
| ConsoleWarn (text : string)
| ConsoleError (text : string).

(** The browser as the adapter meets it.  [room] tells whether the
    storage area has room for a value longer than the one it holds; when
    it has none, [localStorage.setItem] throws for such a value. *)
Record World := {
  localStorage : Stored;
  trace : list Effect;
  room : bool
}.

Definition M (A : Type) : Type := World -> A * World.
Definition ret {A} (a : A) : M A := fun w => (a, w).
Definition bind {A B} (m : M A) (k : A -> M B) : M B :=
  fun w => let '(a, w') := m w in k a w'.

Notation "'do' x <- m ; k" := (bind m (fun x => k))
  (at level 10, x name, m at level 100, k at level 200).
Notation "'run' m ; k" := (bind m (fun _ => k))
  (at level 10, m at level 100, k at level 200).

Definition emit (e : Effect) : M unit :=
  fun w => (tt, {| localStorage := localStorage w;
                   trace := trace w ++ [e];
                   room := room w |}).

(** What [_getLocalIndex] returns: an array of records, or the value
    the stored text parses to. *)
Inductive Parsed :=
| Records (index : list Item.t)
| Value (null : bool).

(** [data ? JSON.parse(data) : []], and [[]] when [JSON.parse] throws. *)
Definition _getLocalIndex : M Parsed :=
  fun w =>
    (match localStorage w with
     | Saved index => Records index
     | NotArray null => Value null
     | Absent | Corrupt => Records []
     end, w).

(** The message of the [TypeError] that the call [receiver.method(...)]
    throws on a value without that method, in the wording of V8. *)
Definition typeError (null : bool) (receiver method : string) : string :=
  if null then "Cannot read properties of null (reading '" +:+ method +:+ "')"
  else receiver +:+ "." +:+ method +:+ " is not a function".

Definition sameItem (a b : Item.t) : bool :=
  String.eqb (Item.key a) (Item.key b)
  && String.eqb (Item.url a) (Item.url b)
  && String.eqb (Item.fileId a) (Item.fileId b)
  && String.eqb (Item.filePath a) (Item.filePath b)
  && (Item.lastModified a =? Item.lastModified b)%Z
  && (Item.size a =? Item.size b)%N.

(** The records of [a] are records of [b], in the order of [b]. *)
Fixpoint isSublist (a b : list Item.t) : bool :=
  match b with
  | [] => match a with [] => true | _ :: _ => false end
  | y :: b' =>
      match a with
      | [] => true
      | x :: a' => if sameItem x y then isSublist a' b' else isSublist a b'
      end
  end.

(** Whether [localStorage.setItem] takes the text of [index]: it does
    when there is room, and also when [index] is made of records of the
    stored array in their order, since its text is then no longer than
    the stored one. *)
Definition fits (index : list Item.t) (w : World) : bool :=
  room w
  || match localStorage w with
     | Saved old => isSublist index old
     | Absent | Corrupt | NotArray _ => false
     end.

(** [_saveLocalIndex(index)]: a failing [setItem] is caught and logged. *)
Definition _saveLocalIndex (index : list Item.t) : M unit :=
  fun w =>
    if fits index w then
      (tt, {| localStorage := Saved index; trace := trace w; room := room w |})
    else emit (ConsoleError "Failed to save local index: QuotaExceededError") w.

(** [async delete(key)]: the value is that of the returned promise. *)
Definition delete (key : string) : M (Result unit) :=
  do index <- _getLocalIndex;
  match index with
  | Value null => ret (Throw (typeError null "index" "filter"))
  | Records index =>
      let newIndex :=
        List.filter (fun item => negb (String.eqb (Item.key item) key)) index in
      run _saveLocalIndex newIndex;
      run emit (ConsoleWarn
        "Telegram storage: removed from local index only (Bot API does not support deletion)");
      ret (Ok tt)
  end.

(** [(a, b) => new Date(b.lastModified) - new Date(a.lastModified)] *)
Definition byLastModifiedDesc (a b : Item.t) : Z :=
  (Item.lastModified b - Item.lastModified a)%Z.

(** [Array.prototype.sort] with a comparator: the stable ordering, in
    which [a] stays ahead of a later [b] unless [cmp a b > 0]. *)
Fixpoint insertSorted {A} (cmp : A -> A -> Z) (x : A) (l : list A) : list A :=
  match l with
  | [] => [x]
  | y :: r => if (cmp x y <=? 0)%Z then x :: l else y :: insertSorted cmp x r
  end.

Fixpoint sort {A} (cmp : A -> A -> Z) (l : list A) : list A :=
  match l with
  | [] => []
  | x :: r => insertSorted cmp x (sort cmp r)
  end.

Definition toEntry (item : Item.t) : Entry.t :=
  {| Entry.key := Item.key item;
     Entry.url := Item.url item;
     Entry.lastModified := Item.lastModified item;
     Entry.size := Item.size item |}.

(** [async listObjects(prefix = '')]; [None] is the omitted argument,
    and the value is that of the returned promise. *)
Definition listObjects (prefix : option string) : M (Result (list Entry.t)) :=
  let prefix := match prefix with Some p => p | None => "" end in
  do index <- _getLocalIndex;
  match index with
  | Value null =>
      if truthy prefix then ret (Throw (typeError null "index" "filter"))
      else ret (Throw (typeError null "filtered" "sort"))
  | Records index =>
      let filtered :=
        if truthy prefix
        then List.filter (fun item => startsWith (Item.key item) prefix) index
        else index in
      ret (Ok (map toEntry (sort byLastModifiedDesc filtered)))
  end.

(** [{ url, type }] *)
Record SendFunction := {
  url : string;
  type : string
}.

Definition _getSendFunction (fileType fileName : string) : SendFunction :=
  let ext := toLowerCase (pop (split "." fileName)) in
  if String.eqb ext "gif" || String.eqb ext "webp"
     || String.eqb fileType "image/gif" then
    {| url := "sendAnimation"; type := "animation" |}
  else if String.eqb fileType "image/svg+xml"
          || String.eqb fileType "image/x-icon" then
    {| url := "sendDocument"; type := "document" |}
  else if startsWith fileType "image/" then
    {| url := "sendPhoto"; type := "photo" |}
  else if startsWith fileType "video/" then
    {| url := "sendVideo"; type := "video" |}
  else if startsWith fileType "audio/" then
    {| url := "sendAudio"; type := "audio" |}
  else {| url := "sendDocument"; type := "document" |}.

End TelegramStorage.

(** ** [storageServices.js] *)
Module StorageServices.
Import JsString.

(** Object, array, string and boolean literals. *)
Inductive Lit :=
| LStr (s : string)
| LBool (b : bool)
| LObj (props : list (string * Lit))
| LArr (elems : list Lit).

Definition field (key label icon : string) (required : bool)
    (extra : list (string * Lit)) (placeholder : string) : Lit :=
  LObj ([("key", LStr key); ("label", LStr label); ("icon", LStr icon)]
        ++ extra
        ++ (if required then [("required", LBool true)] else [])
        ++ [("placeholder", LStr placeholder)]).

Definition service (type label icon description : string)
    (fields : list Lit) : Lit :=
  LObj [("type", LStr type); ("label", LStr label); ("icon", LStr icon);
        ("description", LStr description); ("fields", LArr fields)].

Definition password : list (string * Lit) := [("type", LStr "password")].

Definition STORAGE_SERVICES : Lit :=
  LObj [
    ("s3", service "s3" "S3兼容存储" "Cloudy" "S3和三方兼容的存储服务" [
       field "endpoint" "Endpoint" "Link" false [] "使用其他兼容S3的存储服务时填写";
       field "region" "Region" "Location" true [] "如：us-east-1";
       field "bucket" "Bucket" "Box" true [] "存储桶名称";
       field "accessKey" "AccessKey" "Key" true [] "Access Key ID";
       field "secretKey" "SecretKey" "Lock" true password "Secret Access Key" ]);
    ("oss", service "oss" "阿里云OSS" "Cloudy" "阿里云OSS对象存储服务" [
       field "endpoint" "Endpoint" "Location" true [] "如：oss-cn-beijing.aliyuncs.com";
       field "bucket" "Bucket" "Box" true [] "存储桶名称";
       field "accessKey" "AccessKey" "Key" true [] "AccessKey ID";
       field "secretKey" "SecretKey" "Lock" true password "AccessKey Secret" ]);
    ("cos", service "cos" "腾讯云COS" "Cloudy" "腾讯云COS对象存储服务" [
       field "region" "Region" "Location" true [] "如：ap-guangzhou";
       field "bucket" "Bucket" "Box" true [] "存储桶名称";
       field "secretId" "Secret ID" "Key" true [] "SecretID";
       field "secretKey" "SecretKey" "Lock" true password "SecretKey" ]);
    ("telegram", service "telegram" "Telegram" "ChatDotRound"
       "使用 Telegram Bot 作为存储后端" [
       field "botToken" "Bot Token" "Key" true [] "从 @BotFather 获取的 Bot Token";
       field "chatId" "Chat ID" "ChatDotSquare" true [] "频道或群组 ID，如：-1001234567890";
       field "proxyUrl" "API代理域名" "Link" false [] "可选：API请求代理，如 api.telegram.org 的反代";
       field "customDomain" "自定义访问域名" "View" false [] "可选：图片展示用的域名，如 tg.yourdomain.com" ])
  ].

(** The members every plain object inherits from [Object.prototype]. *)
Definition objectPrototypeMembers : list string :=
  ["constructor"; "__defineGetter__"; "__defineSetter__"; "hasOwnProperty";
   "__lookupGetter__"; "__lookupSetter__"; "isPrototypeOf";
   "propertyIsEnumerable"; "toString"; "valueOf"; "__proto__";
   "toLocaleString"].

(** The outcome of [o[k]]: an own property, a member inherited from
    [Object.prototype] (a built-in function or the prototype itself,
    truthy and without own data properties), or [undefined]. *)
Inductive Lookup :=
| Own (v : Lit)
| Inherited (member : string)
| Undefined.

Fixpoint assoc (k : string) (props : list (string * Lit)) : option Lit :=
  match props with
  | [] => None
  | (k', v) :: r => if String.eqb k k' then Some v else assoc k r
  end.

Definition getProperty (o : Lookup) (k : string) : Lookup :=
  match o with
  | Own (LObj props) =>
      match assoc k props with
      | Some v => Own v
      | None =>
          if existsb (String.eqb k) objectPrototypeMembers
          then Inherited k else Undefined
      end
  | _ => Undefined
  end.

Definition truthyLookup (v : Lookup) : bool :=
  match v with
  | Own (LStr s) => truthy s
  | Own (LBool b) => b
  | Own (LObj _) | Own (LArr _) => true
  | Inherited _ => true
  | Undefined => false
  end.

Definition stringOf (v : Lookup) : string :=
  match v with Own (LStr s) => s | _ => "undefined" end.

Definition getRequiredFields (type : string) : Result (list string) :=
  let service := getProperty (Own STORAGE_SERVICES) type in
  if negb (truthyLookup service) then Ok []
  else
    match getProperty service "fields" with
    | Own (LArr fields) =>
        Ok (map (fun field => stringOf (getProperty (Own field) "key"))
              (List.filter
                 (fun field => truthyLookup (getProperty (Own field) "required"))
                 fields))
    | _ => Throw "TypeError: Cannot read properties of undefined (reading 'filter')"
    end.

(** [{ isValid, message }] *)
Record Validation := {
  isValid : bool;
  message : string
}.

(** [!config[field]?.trim()] for a config whose values are strings. *)
Definition isBlank (config : gmap string string) (field : string) : bool :=
  match config !! field with
  | None => true
  | Some v => negb (truthy (trim v))
  end.

(** [validateStorageConfig(type, config)]; [None] is a missing config
    ([undefined] or [null]). *)
Definition validateStorageConfig (type : string)
    (config : option (gmap string string)) : Result Validation :=
  if negb (truthyLookup (getProperty (Own STORAGE_SERVICES) type)) then
    Ok {| isValid := false; message := "无效的存储类型" |}
  else
    match getRequiredFields type with
    | Throw e => Throw e
    | Ok requiredFields =>
        match config with
        | None => Ok {| isValid := true; message := "配置为空" |}
        | Some config =>
            let allFieldsEmpty := forallb (isBlank config) requiredFields in
            if allFieldsEmpty then
              Ok {| isValid := true; message := "配置为空" |}
            else
              let missingFields := List.filter (isBlank config) requiredFields in
              if (0 <? List.length missingFields)%nat then
                Ok {| isValid := false;
                      message := "请完整填写所有必填项，或清空所有配置" |}
              else Ok {| isValid := true; message := "验证通过" |}
        end
    end.

End StorageServices.

(** ** Objects on the heap and the static accessors of [FileManager] *)
Module Statics.
Import JsString StorageServices.

Inductive Value :=
| VUndefined
| VString (s : string)
| VBool (b : bool)
| VRef (loc : nat).

Inductive Cell :=
| CObject (props : list (string * Value))
| CArray (elems : list Value).

Abbreviation Heap := (list Cell).

Definition alloc (c : Cell) (h : Heap) : Value * Heap :=
  (VRef (List.length h), h ++ [c]).

(** Evaluation of a literal: every object and array literal allocates. *)
Fixpoint build (l : Lit) (h : Heap) : Value * Heap :=
  match l with
  | LStr s => (VString s, h)
  | LBool b => (VBool b, h)
  | LObj props =>
      let fix buildProps (ps : list (string * Lit)) (h : Heap) :=
        match ps with
        | [] => ([], h)
        | (k, v) :: r =>
            let '(v', h1) := build v h in
            let '(r', h2) := buildProps r h1 in
            ((k, v') :: r', h2)
        end in
      let '(props', h') := buildProps props h in
      alloc (CObject props') h'
  | LArr elems =>
      let fix buildElems (es : list Lit) (h : Heap) :=
        match es with
        | [] => ([], h)
        | e :: r =>
            let '(e', h1) := build e h in
            let '(r', h2) := buildElems r h1 in
            (e' :: r', h2)
        end in
      let '(elems', h') := buildElems elems h in
      alloc (CArray elems') h'
  end.

Fixpoint lookupProp (k : string) (props : list (string * Value)) : option Value :=
  match props with
  | [] => None
  | (k', v) :: r => if String.eqb k k' then Some v else lookupProp k r
  end.

Fixpoint updateProp (k : string) (x : Value) (props : list (string * Value))
    : list (string * Value) :=
  match props with
  | [] => [(k, x)]
  | (k', v) :: r =>
      if String.eqb k k' then (k', x) :: r else (k', v) :: updateProp k x r
  end.

(** [o[k]] for a data property of an object *)
Definition get (h : Heap) (o : Value) (k : string) : Value :=
  match o with
  | VRef loc =>
      match h !! loc with
      | Some (CObject props) =>
          match lookupProp k props with Some v => v | None => VUndefined end
      | _ => VUndefined
      end
  | _ => VUndefined
  end.

(** [o.k1.k2...] *)
Fixpoint getPath (h : Heap) (o : Value) (path : list string) : Value :=
  match path with
  | [] => o
  | k :: r => getPath h (get h o k) r
  end.

(** [a[i]] for an array *)
Definition getIndex (h : Heap) (a : Value) (i : nat) : Value :=
  match a with
  | VRef loc =>
      match h !! loc with
      | Some (CArray elems) => nth i elems VUndefined
      | _ => VUndefined
      end
  | _ => VUndefined
  end.

(** [o[k] = x] on an object *)
Definition set (h : Heap) (o : Value) (k : string) (x : Value) : Heap :=
  match o with
  | VRef loc =>
      match h !! loc with
      | Some (CObject props) => <[loc := CObject (updateProp k x props)]> h
      | _ => h
      end
  | _ => h
  end.

(** [a.push(x)] on an array *)
Definition push (h : Heap) (a : Value) (x : Value) : Heap :=
  match a with
  | VRef loc =>
      match h !! loc with
      | Some (CArray elems) => <[loc := CArray (elems ++ [x])]> h
      | _ => h
      end
  | _ => h
  end.

(** The own enumerable properties that [{ ...o }] copies. *)
Definition ownProps (h : Heap) (o : Value) : list (string * Value) :=
  match o with
  | VRef loc =>
      match h !! loc with
      | Some (CObject props) => props
      | Some (CArray elems) =>
          imap (fun i v => (ofN (N.of_nat i), v)) elems
      | None => []
      end
  | VString s => imap (fun i c => (ofN (N.of_nat i), VString (str [c]))) (chars s)
  | VUndefined | VBool _ => []
  end.

(** [{ ...o }] *)
Definition spreadObject (h : Heap) (o : Value) : Value * Heap :=
  alloc (CObject (ownProps h o)) h.

(** [[...a]]: [a] must be iterable. *)
Definition spreadArray (h : Heap) (a : Value) : Result (Value * Heap) :=
  match a with
  | VRef loc =>
      match h !! loc with
      | Some (CArray elems) => Ok (alloc (CArray elems) h)
      | _ => Throw "TypeError: object is not iterable"
      end
  | VString s => Ok (alloc (CArray (map (fun c => VString (str [c])) (chars s))) h)
  | VUndefined | VBool _ => Throw "TypeError: value is not iterable"
  end.

(** The module-level constants the accessors read.  [STORAGE_SERVICES]
    is the literal of [storageServices.js]; the other three are defined
    in [config/fileTypes] and [config/imageConfig] and are taken as
    given. *)
Record Globals := {
  DEFAULT_SETTINGS : Value;
  NAME_RULES : Value;
  OUTPUT_FORMATS : Value;
  STORAGE_SERVICES : Value
}.

(** [{ ...DEFAULT_SETTINGS,
       allowedTypes: [...DEFAULT_SETTINGS.allowedTypes],
       image: { ...DEFAULT_SETTINGS.image } }] *)
Definition getDefaultSettings (g : Globals) (h : Heap) : Result (Value * Heap) :=
  let props := ownProps h (DEFAULT_SETTINGS g) in
  match spreadArray h (get h (DEFAULT_SETTINGS g) "allowedTypes") with
  | Throw e => Throw e
  | Ok (allowedTypes, h1) =>
      let '(image, h2) := spreadObject h1 (get h1 (DEFAULT_SETTINGS g) "image") in
      Ok (alloc (CObject (updateProp "image" image
                   (updateProp "allowedTypes" allowedTypes props))) h2)
  end.

Definition getNameRules (g : Globals) (h : Heap) : Value * Heap :=
  spreadObject h (NAME_RULES g).

Definition getOutputFormats (g : Globals) (h : Heap) : Value * Heap :=
  spreadObject h (OUTPUT_FORMATS g).

Definition getSupportedStorages (g : Globals) (h : Heap) : Value * Heap :=
  spreadObject h (STORAGE_SERVICES g).

(** The heap once [storageServices.js] has been loaded, with the three
    constants of the other modules left undefined. *)
Definition loaded : Globals * Heap :=
  let '(services, h) := build StorageServices.STORAGE_SERVICES [] in
  ({| DEFAULT_SETTINGS := VUndefined; NAME_RULES := VUndefined;
      OUTPUT_FORMATS := VUndefined; STORAGE_SERVICES := services |}, h).

End Statics.

(** ** The specification's wording, for comparison with the code *)
Module Spec.
Import JsString.

(** "fails when [sizeBytes / 1e6 > maxFileSizeMB]" *)
Definition exceedsLimit (sizeBytes : N) (maxFileSizeMB : Q) : Prop :=
  (maxFileSizeMB < inject_Z (Z.of_N sizeBytes) / inject_Z 1000000)%Q.

(** "the extension, taken as the substring after the final ['.']"; a
    name without ['.'] is its own extension. *)
Definition extension (filename : string) : string :=
  pop (split "." filename).

Fixpoint join (sep : string) (segs : list string) : string :=
  match segs with
  | [] => ""
  | [seg] => seg
  | seg :: r => seg +:+ sep +:+ join sep r
  end.

(** "the original base name": the filename without its final ['.'] and
    extension. *)
Definition baseName (filename : string) : string :=
  match removelast (split "." filename) with
  | [] => filename
  | init => join "." init
  end.

(** "the original base name with every character outside
    [[a-zA-Z0-9-_.]] replaced by ['-'], repeated ['-'] collapsed to one,
    leading/trailing ['-'] trimmed", followed by ['.'] and the
    lower-cased extension. *)
Definition originalName (filename : string) : string :=
  FileManager.sanitize (baseName filename)
    +:+ "." +:+ toLowerCase (extension filename).

(** Substitution of a placeholder: every occurrence is replaced. *)
Fixpoint replaceAllChars (fuel : nat) (pat rep l : list ascii) : list ascii :=
  match fuel with
  | O => l
  | S fuel' =>
      match l with
      | [] => []
      | c :: r =>
          if isPrefix pat l
          then rep ++ replaceAllChars fuel' pat rep (skipn (List.length pat) l)
          else c :: replaceAllChars fuel' pat rep r
      end
  end.

Definition replaceAll (s pat rep : string) : string :=
  str (replaceAllChars (String.length s) (chars pat) (chars rep) (chars s)).

(** "substitutes [{year}], [{month}] (zero-padded 2 digits) and [{day}]
    (zero-padded 2 digits) from the current date into the template" *)
Definition substitute (template : string) (clock : FileManager.Environment) : string :=
  replaceAll
    (replaceAll
      (replaceAll template "{year}" (ofZ (FileManager.getFullYear clock)))
      "{month}" (padStart 2 "0" (ofN (FileManager.getMonth clock + 1))))
    "{day}" (padStart 2 "0" (ofN (FileManager.getDate clock))).


(** No two [c] in a row. *)
Definition noRepeat (c : ascii) (l : list ascii) : Prop :=
  forall pre suf, l <> pre ++ c :: c :: suf.

(** [key] starts with [prefix]. *)
Definition hasPrefix (prefix key : string) : Prop :=
  exists rest, key = prefix +:+ rest.

(** The text after the final [c] of a text that holds a [c]. *)
Fixpoint afterFinalChars (c : ascii) (l : list ascii) : option (list ascii) :=
  match l with
  | [] => None
  | x :: r =>
      match afterFinalChars c r with
      | Some tail => Some tail
      | None => if Ascii.eqb x c then Some r else None
      end
  end.

Definition afterFinal (c : ascii) (s : string) : option string :=
  option_map str (afterFinalChars c (chars s)).

(** Lower case, read off the alphabet. *)
Definition capitals : string := "ABCDEFGHIJKLMNOPQRSTUVWXYZ".
Definition smalls : string := "abcdefghijklmnopqrstuvwxyz".

Fixpoint pairedWith (from to : list ascii) (ch : ascii) : ascii :=
  match from, to with
  | a :: from', b :: to' => if Ascii.eqb ch a then b else pairedWith from' to' ch
  | _, _ => ch
  end.

Definition lowerCased (s : string) : string :=
  str (map (pairedWith (chars capitals) (chars smalls)) (chars s)).

(** A text of ASCII characters. *)
Definition isAscii (s : string) : Prop :=
  forallb (fun ch => (N_of_ascii ch <? 128)%N) (chars s) = true.

(** "the extension (lower-cased, taken as the substring after the final
    ['.'])": a name without ['.'] has none. *)
Definition finalExtension (filename : string) : option string :=
  option_map lowerCased (afterFinal "." filename).

(** The same, with the whole name standing in when it has no ['.']. *)
Definition extensionOrName (filename : string) : string :=
  lowerCased (match afterFinal "." filename with
              | Some ext => ext
              | None => filename
              end).










End Spec.

(** ** [TelegramStorage]: the Bot API side *)
Module TelegramApi.
Import JsString TelegramStorage.

(** [new TelegramStorage(config)]: the fields of the instance that the
    methods read.  [proxyUrl] is [config.proxyUrl || ''], and
    [fileManager] is the configuration of the [FileManager] the adapter
    was given. *)
Record Adapter := {
  botToken : string;
  chatId : string;
  proxyUrl : string;
  fileManager : FileManager.Config
}.

(** [this.proxyUrl ? `https://${this.proxyUrl}` : 'https://api.telegram.org'],
    which is both [apiDomain] and [this.fileDomain]. *)
Definition fileDomain (self : Adapter) : string :=
  if truthy (proxyUrl self) then "https://" +:+ proxyUrl self
  else "https://api.telegram.org".

(** [this.baseURL] *)
Definition baseURL (self : Adapter) : string :=
  fileDomain self +:+ "/bot" +:+ botToken self.

(** A file descriptor in a Bot API answer; [file_name] and [file_size]
    are optional there. *)
Module FileObject.
Record t := {
  file_id : string;
  file_unique_id : string;
  file_name : option string;
  file_size : option N
}.
End FileObject.

(** [responseData.result]: the media fields of a sent message and the
    [file_path] of a [getFile] answer, each of which may be missing. *)
Record Payload := {
  photo : option (list FileObject.t);
  video : option FileObject.t;
  audio : option FileObject.t;
  document : option FileObject.t;
  animation : option FileObject.t;
  file_path : option string
}.

(** The JSON body of a Bot API answer. *)
Record ApiResponse := {
  ok : bool;
  description : option string;
  result : option Payload
}.

(** What [fetch] gives for a request: it rejects, or it resolves to a
    response with its [ok] flag, [status], body text, and the outcome of
    [response.json()]. *)
Inductive HttpResponse :=
| NetworkFailure (message : string)
| Http (httpOk : bool) (status : N) (text : string) (json : Result ApiResponse).

(** The network during one call of a method, as a function of the
    requested URL; no method requests the same URL twice. *)
Definition Network := string -> HttpResponse.

(** [getFileDetails(file)] *)
Module Details.
Record t := {
  file_id : string;
  file_name : string;
  file_size : option N
}.
End Details.

Definition getFileDetails (file : FileObject.t) : Details.t :=
  {| Details.file_id := FileObject.file_id file;
     Details.file_name :=
       match FileObject.file_name file with
       | Some n => if truthy n then n else FileObject.file_unique_id file
       | None => FileObject.file_unique_id file
       end;
     Details.file_size := FileObject.file_size file |}.

(** [a > b] on sizes that may be [undefined]: a comparison with
    [undefined] is false. *)
Definition sizeGt (a b : option N) : bool :=
  match a, b with
  | Some x, Some y => (y <? x)%N
  | _, _ => false
  end.

(** [(prev, current) => (prev.file_size > current.file_size) ? prev : current] *)
Definition larger (prev current : FileObject.t) : FileObject.t :=
  if sizeGt (FileObject.file_size prev) (FileObject.file_size current)
  then prev else current.

(** [arr.reduce(f)] without an initial value: it throws on an empty
    array. *)
Definition reduce {A} (f : A -> A -> A) (arr : list A) : Result A :=
  match arr with
  | [] => Throw "Reduce of empty array with no initial value"
  | x :: r => Ok (fold_left f r x)
  end.

Definition parsingFailed (message : string) : M (option Details.t) :=
  run emit (ConsoleError ("Error parsing Telegram response: " +:+ message));
  ret None.

(** [_getFileInfo(responseData)]; [None] is [null]. *)
Definition _getFileInfo (responseData : ApiResponse) : M (option Details.t) :=
  if negb (ok responseData) then ret None
  else
    match result responseData with
    | None => parsingFailed "Cannot read properties of undefined (reading 'photo')"
    | Some result =>
        match photo result with
        | Some variants =>
            match reduce larger variants with
            | Ok largestPhoto => ret (Some (getFileDetails largestPhoto))
            | Throw e => parsingFailed e
            end
        | None =>
            match video result with
            | Some f => ret (Some (getFileDetails f))
            | None =>
                match audio result with
                | Some f => ret (Some (getFileDetails f))
                | None =>
                    match document result with
                    | Some f => ret (Some (getFileDetails f))
                    | None =>
                        match animation result with
                        | Some f => ret (Some (getFileDetails f))
                        | None => ret None
                        end
                    end
                end
            end
        end
    end.

Definition pathFailed (message : string) : M (option string) :=
  run emit (ConsoleError ("Error getting file path: " +:+ message));
  ret None.

(** [async _getFilePath(fileId)]; [None] is [null] or [undefined]. *)
Definition _getFilePath (self : Adapter) (net : Network) (fileId : string)
    : M (option string) :=
  let url := baseURL self +:+ "/getFile?file_id=" +:+ fileId in
  run emit (Fetch url);
  match net url with
  | NetworkFailure e => pathFailed e
  | Http _ _ _ (Throw e) => pathFailed e
  | Http _ _ _ (Ok responseData) =>
      if ok responseData then
        match result responseData with
        | None => pathFailed "Cannot read properties of undefined (reading 'file_path')"
        | Some result => ret (file_path result)
        end
      else ret None
  end.

(** [{ url, key, fileId, filePath }] *)
Module Uploaded.
Record t := {
  url : string;
  key : string;
  fileId : string;
  filePath : string
}.
End Uploaded.

(** [`${description}`] *)
Definition render (description : option string) : string :=
  match description with Some d => d | None => "undefined" end.

(** [async upload(file)].  [Throw m] stands for the call
    [this._handleError(error, '上传')] with an error of message [m];
    [_handleError] belongs to [BaseStorage].  [savedAt] is the instant of
    the [new Date()] written into the index. *)
Definition upload (self : Adapter) (net : Network)
    (env : FileManager.Environment) (savedAt : Z) (file : FileManager.File)
    : M (Result Uploaded.t) :=
  let key := FileManager.generatePath (fileManager self) env (FileManager.name file) in
  let sendFunction :=
    _getSendFunction (FileManager.type file) (FileManager.name file) in
  let request := baseURL self +:+ "/" +:+ url sendFunction in
  run emit (Fetch request);
  match net request with
  | NetworkFailure e => ret (Throw e)
  | Http false status errorText _ =>
      ret (Throw ("Telegram API error: " +:+ ofN status +:+ " " +:+ errorText))
  | Http true _ _ (Throw e) => ret (Throw e)
  | Http true _ _ (Ok responseData) =>
      if negb (ok responseData) then
        ret (Throw ("Telegram API error: " +:+ render (description responseData)))
      else
        do fileInfo <- _getFileInfo responseData;
        match fileInfo with
        | None => ret (Throw "Failed to get file info from Telegram response")
        | Some fileInfo =>
            do filePath <- _getFilePath self net (Details.file_id fileInfo);
            match filePath with
            | None => ret (Throw "Failed to get file path from Telegram")
            | Some filePath =>
                if negb (truthy filePath) then
                  ret (Throw "Failed to get file path from Telegram")
                else
                  let url := fileDomain self +:+ "/file/bot" +:+ botToken self
                             +:+ "/" +:+ filePath in
                  do index <- _getLocalIndex;
                  match index with
                  | Value null => ret (Throw (typeError null "index" "push"))
                  | Records index =>
                      run _saveLocalIndex
                        (index ++ [ {| Item.key := key;
                                       Item.url := url;
                                       Item.fileId := Details.file_id fileInfo;
                                       Item.filePath := filePath;
                                       Item.lastModified := savedAt;
                                       Item.size :=
                                         match Details.file_size fileInfo with
                                         | Some n => n
                                         | None => 0%N
                                         end |} ]);
                      ret (Ok {| Uploaded.url := url;
                                 Uploaded.key := key;
                                 Uploaded.fileId := Details.file_id fileInfo;
                                 Uploaded.filePath := filePath |})
                  end
            end
        end
  end.

(** [async getFileContent(fileId)]: the response of the file request;
    [Throw] is a rejected promise. *)
Definition getFileContent (self : Adapter) (net : Network) (fileId : string)
    : M (Result HttpResponse) :=
  do filePath <- _getFilePath self net fileId;
  match filePath with
  | Some filePath =>
      if truthy filePath then
        let fullURL := fileDomain self +:+ "/file/bot" +:+ botToken self
                       +:+ "/" +:+ filePath in
        run emit (Fetch fullURL);
        match net fullURL with
        | NetworkFailure e => ret (Throw e)
        | response => ret (Ok response)
        end
      else ret (Throw ("File path not found for fileId: " +:+ fileId))
  | None => ret (Throw ("File path not found for fileId: " +:+ fileId))
  end.

Fixpoint isInfix (pat l : list ascii) : bool :=
  match l with
  | [] => isPrefix pat []
  | _ :: r => isPrefix pat l || isInfix pat r
  end.

(** [s.includes(pat)] *)
Definition includes (s pat : string) : bool := isInfix (chars pat) (chars s).

(** [_parseError(error)], on [error.message || '']. *)
Definition _parseError (message : string) : string :=
  if includes message "Unauthorized" then "Bot Token 无效或已过期"
  else if includes message "chat not found" then
    "Chat ID 无效或 Bot 未加入该频道/群组"
  else if includes message "bot was kicked" then "Bot 已被踢出该频道/群组"
  else if includes message "not enough rights" then "Bot 没有发送消息的权限"
  else if includes message "file is too big" then
    "文件大小超过 Telegram 限制 (20MB)"
  else if includes message "NetworkError" || includes message "fetch" then
    "网络连接失败，请检查网络或代理配置"
  else if truthy message then message else "未知错误".

(** The arguments [testConnection] hands to [this._formatTestResult],
    which belongs to [BaseStorage]. *)
Record TestResult := {
  success : bool;
  message : option string
}.

(** [async testConnection()] *)
Definition testConnection (self : Adapter) (net : Network) : M TestResult :=
  let url := baseURL self +:+ "/getMe" in
  run emit (Fetch url);
  match net url with
  | NetworkFailure e =>
      ret {| success := false; message := Some (_parseError e) |}
  | Http _ _ _ (Throw e) =>
      ret {| success := false; message := Some (_parseError e) |}
  | Http _ _ _ (Ok data) =>
      if ok data then ret {| success := true; message := None |}
      else
        ret {| success := false;
               message := Some (match description data with
                                | Some d => if truthy d then d else "Invalid bot token"
                                | None => "Invalid bot token"
                                end) |}
  end.

End TelegramApi.

(** ** [FileManager]: construction *)
Module Construction.
Import JsString StorageServices.

(** The argument of [new FileManager(config)]: each option may be
    missing. *)
Record Options := {
  uploadPath : option string;
  nameRule : option string;
  allowedTypes : option (list string);
  maxFileSize : option Q
}.

(** [DEFAULT_SETTINGS], which is defined in [config/fileTypes] and is
    taken as given. *)
Record Defaults := {
  defaultUploadPath : string;
  defaultNameRule : string;
  defaultAllowedTypes : list string;
  defaultMaxFileSize : Q
}.

(** The branch the [switch] of [_generateFilename] takes for a rule. *)
Definition nameRuleOf (rule : string) : FileManager.NameRule :=
  if String.eqb rule "timestamp" then FileManager.timestamp
  else if String.eqb rule "random" then FileManager.random
  else FileManager.original.

(** [a || b] on an optional string, an optional number and an optional
    array: the empty string and zero are falsy, every array is truthy. *)
Definition orString (a : option string) (b : string) : string :=
  match a with
  | Some s => if truthy s then s else b
  | None => b
  end.

Definition orNumber (a : option Q) (b : Q) : Q :=
  match a with
  | Some q => if Qeq_bool q 0 then b else q
  | None => b
  end.

Definition orArray {A} (a : option (list A)) (b : list A) : list A :=
  match a with
  | Some l => l
  | None => b
  end.

(** [constructor(config = {})]: the value of [this.config]. *)
Definition constructor (DEFAULT_SETTINGS : Defaults) (config : Options)
    : FileManager.Config :=
  {| FileManager.uploadPath :=
       orString (uploadPath config) (defaultUploadPath DEFAULT_SETTINGS);
     FileManager.nameRule :=
       nameRuleOf (orString (nameRule config) (defaultNameRule DEFAULT_SETTINGS));
     FileManager.allowedTypes :=
       orArray (allowedTypes config) (defaultAllowedTypes DEFAULT_SETTINGS);
     FileManager.maxFileSize :=
       orNumber (maxFileSize config) (defaultMaxFileSize DEFAULT_SETTINGS) |}.

(** A property of the storage config other than [uploadPath] and
    [nameRule]: a string, such as a credential, or an object, such as the
    section [config[type]]. *)
Inductive Setting :=
| Text (s : string)
| Section (props : gmap string string).

(** The config object handed to [createStorage] and
    [isStorageConfigured]. *)
Record StorageConfig := {
  configUploadPath : option string;
  configNameRule : option string;
  settings : gmap string Setting
}.

(** The string-valued properties, which is what [config[field]?.trim()]
    can be applied to. *)
Definition texts (config : StorageConfig) : gmap string string :=
  omap (fun v => match v with Text s => Some s | Section _ => None end)
       (settings config).

Definition isSection (config : StorageConfig) (field : string) : bool :=
  match settings config !! field with
  | Some (Section _) => true
  | _ => false
  end.

(** [validateStorageConfig(type, config)] on such a config: a required
    field that holds an object has no [trim], and both [every] and
    [filter] reach it. *)
Definition validate (type : string) (config : option StorageConfig)
    : Result Validation :=
  match config with
  | None => validateStorageConfig type None
  | Some config =>
      match getRequiredFields type with
      | Ok requiredFields =>
          if truthyLookup (getProperty (Own STORAGE_SERVICES) type)
             && existsb (isSection config) requiredFields
          then Throw "TypeError: config[field]?.trim is not a function"
          else validateStorageConfig type (Some (texts config))
      | Throw _ => validateStorageConfig type (Some (texts config))
      end
  end.

(** [STORAGE_CLASSES], with each class standing for itself. *)
Definition STORAGE_CLASSES : Lit :=
  LObj [("s3", LStr "S3Storage"); ("oss", LStr "OSSStorage");
        ("cos", LStr "COSStorage"); ("telegram", LStr "TelegramStorage")].

(** [{ ...value }] for a property of the config: the properties of an
    object, the indexed characters of a string, nothing for
    [undefined]. *)
Definition spread (value : option Setting) : gmap string string :=
  match value with
  | Some (Section props) => props
  | Some (Text s) =>
      list_to_map (imap (fun i c => (ofN (N.of_nat i), str [c])) (chars s))
  | None => ∅
  end.

(** The call [new StorageClass({ ...config[type], fileManager })]: the
    class, the options it is given, and the configuration of the
    [FileManager] among them. *)
Record Constructed := {
  storageClass : Lookup;
  options : gmap string string;
  fileManager : FileManager.Config
}.

(** [static createStorage(type, config)]; [None] is a missing config. *)
Definition createStorage (DEFAULT_SETTINGS : Defaults) (type : string)
    (config : option StorageConfig) : Result Constructed :=
  match validate type config with
  | Throw e => Throw e
  | Ok validation =>
      if negb (isValid validation) then Throw (message validation)
      else
        let StorageClass := getProperty (Own STORAGE_CLASSES) type in
        if negb (truthyLookup StorageClass) then Throw "不支持的存储类型"
        else
          match config with
          | None =>
              Throw "TypeError: Cannot read properties of undefined (reading 'uploadPath')"
          | Some config =>
              Ok {| storageClass := StorageClass;
                    options := spread (settings config !! type);
                    fileManager :=
                      constructor DEFAULT_SETTINGS
                        {| uploadPath := configUploadPath config;
                           nameRule := configNameRule config;
                           allowedTypes := None;
                           maxFileSize := None |} |}
          end
  end.

(** [static isStorageConfigured(type, config)], as the truth value of
    what it returns. *)
Definition isStorageConfigured (type : string) (config : option StorageConfig)
    : Result bool :=
  match config with
  | None => Ok false
  | Some c =>
      if negb (truthy type) then Ok false
      else
        match validate type config with
        | Throw e => Throw e
        | Ok validation =>
            Ok (isValid validation
                && match settings c !! type with
                   | Some (Section props) => negb (Nat.eqb (size props) 0)
                   | Some (Text s) => truthy s
                   | None => false
                   end)
        end
  end.

(** [new TelegramStorage(config)] on the options [createStorage] passes:
    a missing [botToken] or [chatId] is [undefined], which the methods
    only ever splice into text. *)
Definition telegramStorage (made : Constructed) : TelegramApi.Adapter :=
  {| TelegramApi.botToken := default "undefined" (options made !! "botToken");
     TelegramApi.chatId := default "undefined" (options made !! "chatId");
     TelegramApi.proxyUrl := default "" (options made !! "proxyUrl");
     TelegramApi.fileManager := fileManager made |}.

End Construction.

(** ** [ImageHelper] *)
Module ImageHelper.
Import JsString TelegramStorage.

(** What the helper shows or calls: [ElMessage.success], [ElMessage.error]
    and the callback [onSuccess]. *)
Inductive UiEvent :=
| SuccessMessage (text : string)
| ErrorMessage (text : string)
| OnSuccess.

(** What is caught: an [Error] with its message, a string, which has no
    [message], or [null] or [undefined], of which no property can be
    read. *)
Inductive Caught :=
| ErrorObject (message : string)
| Action (text : string)
| Nullish.

(** The argument [onSuccess]: left out (or falsy), a function, with what
    its call throws if it throws, or a truthy value that is not a
    function. *)
Inductive Callback :=
| Omitted
| Function (throws : option Caught)
| NotFunction.

(** What the helper has shown and called, and how its promise settles. *)
Record Outcome := {
  events : list UiEvent;
  settled : Result unit
}.

(** The [catch] clause: [err !== 'cancel'] and
    ['删除失败：' + err.message]. *)
Definition reportFailure (shown : list UiEvent) (err : Caught) : Outcome :=
  match err with
  | Action text =>
      if String.eqb text "cancel" then {| events := shown; settled := Ok tt |}
      else {| events := shown ++ [ErrorMessage "删除失败：undefined"];
              settled := Ok tt |}
  | ErrorObject message =>
      {| events := shown ++ [ErrorMessage ("删除失败：" +:+ message)];
         settled := Ok tt |}
  | Nullish =>
      {| events := shown;
         settled := Throw "Cannot read properties of null (reading 'message')" |}
  end.

(** [ElMessage.success('删除成功')] and [onSuccess && onSuccess()] *)
Definition finish (onSuccess : Callback) : Outcome :=
  let shown := [SuccessMessage "删除成功"] in
  match onSuccess with
  | Omitted => {| events := shown; settled := Ok tt |}
  | Function None => {| events := shown ++ [OnSuccess]; settled := Ok tt |}
  | Function (Some err) => reportFailure (shown ++ [OnSuccess]) err
  | NotFunction =>
      reportFailure shown (ErrorObject "onSuccess is not a function")
  end.

(** [async deleteImage(storage, image, onSuccess, selector)]:
    [confirm] is how [ElMessageBox.confirm] settles ([None] when the user
    confirms, otherwise the action it rejects with), [storageDelete] is
    [storage.delete] and [imageKey] is [image.key]. *)
Definition deleteImage (confirm : option string)
    (storageDelete : string -> M (Result unit))
    (imageKey : option string) (onSuccess : Callback) : M Outcome :=
  match confirm with
  | Some action => ret (reportFailure [] (Action action))
  | None =>
      match imageKey with
      | Some key =>
          if truthy key then
            do outcome <- storageDelete key;
            match outcome with
            | Ok _ => ret (finish onSuccess)
            | Throw e => ret (reportFailure [] (ErrorObject e))
            end
          else ret (finish onSuccess)
      | None => ret (finish onSuccess)
      end
  end.

End ImageHelper.

(** ** Vocabulary of the properties *)

(** The index records that the store of a world holds. *)
Definition indexOf (w : TelegramStorage.World) : list TelegramStorage.Item.t :=
  match TelegramStorage.localStorage w with
  | TelegramStorage.Saved index => index
  | _ => []
  end.

(** The line [delete] writes on the console. *)
Definition deletionWarning : TelegramStorage.Effect :=
  TelegramStorage.ConsoleWarn
    "Telegram storage: removed from local index only (Bot API does not support deletion)".

(** The requests among the effects. *)
Definition isFetch (e : TelegramStorage.Effect) : bool :=
  match e with TelegramStorage.Fetch _ => true | _ => false end.

(** [a] was modified no earlier than [b]. *)
Definition newerOrSame (a b : TelegramStorage.Item.t) : Prop :=
  (TelegramStorage.Item.lastModified b <= TelegramStorage.Item.lastModified a)%Z.

(** The keys of [STORAGE_SERVICES]. *)
Definition knownTypes : list string := ["s3"; "oss"; "cos"; "telegram"].



(** The date 2024-03-05, with a random source that returns 0.5, which
    [toString(36)] prints as ["0.i"]. *)
Definition march5 : FileManager.Environment :=
  {| FileManager.getFullYear := 2024;
     FileManager.getMonth := 2;
     FileManager.getDate := 5;
     FileManager.now := 1709600000000;
     FileManager.randomDigits := FileManager.fractionDigits36 8 (1 # 2) |}.

Definition settings (template : string) (rule : FileManager.NameRule)
    : FileManager.Config :=
  {| FileManager.uploadPath := template;
     FileManager.nameRule := rule;
     FileManager.allowedTypes := ["image/png"];
     FileManager.maxFileSize := 10 |}.

(** The first replace of the rule [original], on one character. *)
Definition keepOrDash (ch : ascii) : ascii :=
  if FileManager.isNameChar ch then ch else "-"%char.

Definition allNameChars (l : list ascii) : Prop :=
  List.Forall (fun ch => FileManager.isNameChar ch = true) l.

(** A text is a sanitized name when it holds allowed characters only,
    no two dashes in a row, and no dash at either end. *)
Definition sanitized (l : list ascii) : Prop :=
  allNameChars l /\ Spec.noRepeat "-" l
  /\ JsString.headIs "-" l = false /\ JsString.headIs "-" (rev l) = false.

(** The nonempty components of a path, in order. *)
Definition components (l : list ascii) : list (list ascii) :=
  List.filter (fun seg => negb (Nat.eqb (List.length seg) 0))
              (JsString.splitChars "/" l).

(** A step that adds effects, none of them a request, keeps the store,
    and whose value does not depend on the world. *)
Definition quiet {A} (m : TelegramStorage.M A) : Prop :=
  forall w, exists es,
    snd (m w) = {| TelegramStorage.localStorage := TelegramStorage.localStorage w;
                   TelegramStorage.trace := TelegramStorage.trace w ++ es;
                   TelegramStorage.room := TelegramStorage.room w |}
    /\ List.filter isFetch es = []
    /\ forall w0, fst (m w0) = fst (m w).

(** The URL [upload] posts the file to. *)
Definition sendRequest (self : TelegramApi.Adapter) (file : FileManager.File)
    : string :=
  TelegramApi.baseURL self +:+ "/"
    +:+ TelegramStorage.url
          (TelegramStorage._getSendFunction (FileManager.type file)
             (FileManager.name file)).

(** A bot behind the official API, a browser without stored index, a
    PNG file, and a network that answers the two requests of its upload:
    [sendPhoto] with two size variants, [getFile] with a path. *)
Definition sampleAdapter : TelegramApi.Adapter :=
  {| TelegramApi.botToken := "123:abc";
     TelegramApi.chatId := "-1001";
     TelegramApi.proxyUrl := "";
     TelegramApi.fileManager := settings "{year}/{month}/{day}" FileManager.original |}.

Definition freshWorld : TelegramStorage.World :=
  {| TelegramStorage.localStorage := TelegramStorage.Absent;
     TelegramStorage.trace := [];
     TelegramStorage.room := true |}.

Definition samplePng : FileManager.File :=
  {| FileManager.name := "cat.png"; FileManager.type := "image/png";
     FileManager.size := 2048; FileManager.content := 0 |}.

Definition variant (id : string) (bytes : N) : TelegramApi.FileObject.t :=
  {| TelegramApi.FileObject.file_id := id;
     TelegramApi.FileObject.file_unique_id := id;
     TelegramApi.FileObject.file_name := None;
     TelegramApi.FileObject.file_size := Some bytes |}.

Definition noPayload : TelegramApi.Payload :=
  {| TelegramApi.photo := None; TelegramApi.video := None;
     TelegramApi.audio := None; TelegramApi.document := None;
     TelegramApi.animation := None; TelegramApi.file_path := None |}.

Definition photoAnswer : TelegramApi.ApiResponse :=
  {| TelegramApi.ok := true;
     TelegramApi.description := None;
     TelegramApi.result :=
       Some {| TelegramApi.photo := Some [variant "small" 100; variant "large" 900];
               TelegramApi.video := None; TelegramApi.audio := None;
               TelegramApi.document := None; TelegramApi.animation := None;
               TelegramApi.file_path := None |} |}.

Definition sampleNetwork : TelegramApi.Network :=
  fun request =>
    if String.eqb request "https://api.telegram.org/bot123:abc/sendPhoto" then
      TelegramApi.Http true 200 "" (Ok photoAnswer)
    else if String.eqb request
              "https://api.telegram.org/bot123:abc/getFile?file_id=large" then
      TelegramApi.Http true 200 ""
        (Ok {| TelegramApi.ok := true;
               TelegramApi.description := None;
               TelegramApi.result :=
                 Some {| TelegramApi.photo := None; TelegramApi.video := None;
                         TelegramApi.audio := None; TelegramApi.document := None;
                         TelegramApi.animation := None;
                         TelegramApi.file_path := Some "photos/file_7.png" |} |})
    else TelegramApi.NetworkFailure "NetworkError when attempting to fetch resource.".

(** A network on which every request fails. *)
Definition offline : TelegramApi.Network :=
  fun _ => TelegramApi.NetworkFailure "Failed to fetch".

(** What the upload of [samplePng] over [sampleNetwork] returns, and the
    world it leaves. *)
Definition sampleUploaded : TelegramApi.Uploaded.t :=
  {| TelegramApi.Uploaded.url :=
       "https://api.telegram.org/file/bot123:abc/photos/file_7.png";
     TelegramApi.Uploaded.key := "2024/03/05/cat.png";
     TelegramApi.Uploaded.fileId := "large";
     TelegramApi.Uploaded.filePath := "photos/file_7.png" |}.

Definition uploadedWorld : TelegramStorage.World :=
  {| TelegramStorage.localStorage :=
       TelegramStorage.Saved
         [{| TelegramStorage.Item.key := "2024/03/05/cat.png";
             TelegramStorage.Item.url :=
               "https://api.telegram.org/file/bot123:abc/photos/file_7.png";
             TelegramStorage.Item.fileId := "large";
             TelegramStorage.Item.filePath := "photos/file_7.png";
             TelegramStorage.Item.lastModified := 1709600001000;
             TelegramStorage.Item.size := 900 |}];
     TelegramStorage.trace :=
       [TelegramStorage.Fetch "https://api.telegram.org/bot123:abc/sendPhoto";
        TelegramStorage.Fetch
          "https://api.telegram.org/bot123:abc/getFile?file_id=large"];
     TelegramStorage.room := true |}.

(** Three records, the last two of the same instant. *)
Definition record (key : string) (instant : Z) : TelegramStorage.Item.t :=
  {| TelegramStorage.Item.key := key;
     TelegramStorage.Item.url := "https://api.telegram.org/file/bot123:abc/" +:+ key;
     TelegramStorage.Item.fileId := key;
     TelegramStorage.Item.filePath := key;
     TelegramStorage.Item.lastModified := instant;
     TelegramStorage.Item.size := 1 |}.

Definition threeRecords : list TelegramStorage.Item.t :=
  [record "c.png" 30; record "a.png" 20; record "b.png" 20].

(** The world a failed upload over [offline] leaves. *)
Definition offlineWorld : TelegramStorage.World :=
  {| TelegramStorage.localStorage := TelegramStorage.Absent;
     TelegramStorage.trace :=
       [TelegramStorage.Fetch "https://api.telegram.org/bot123:abc/sendPhoto"];
     TelegramStorage.room := true |}.

(** Defaults of a manager, and a config for the Telegram service that
    holds its section only. *)
Definition sampleDefaults : Construction.Defaults :=
  {| Construction.defaultUploadPath := "{year}/{month}/{day}";
     Construction.defaultNameRule := "original";
     Construction.defaultAllowedTypes := ["image/png"; "image/jpeg"];
     Construction.defaultMaxFileSize := 10 |}.

Definition telegramConfig : Construction.StorageConfig :=
  {| Construction.configUploadPath := Some "uploads/{year}";
     Construction.configNameRule := Some "timestamp";
     Construction.settings :=
       {[ "telegram" :=
            Construction.Section
              (<[ "botToken" := "123:abc" ]> {[ "chatId" := "-1001" ]}) ]} |}.

(** Whether an event of the helper is a message. *)
Definition isMessage (e : ImageHelper.UiEvent) : bool :=
  match e with
  | ImageHelper.SuccessMessage _ | ImageHelper.ErrorMessage _ => true
  | ImageHelper.OnSuccess => false
  end.

(* ===================================================================== *)
(** * Part II: properties                                                *)
(* ===================================================================== *)

(** ** Strings *)
Section StringFacts.
Import JsString.

Lemma chars_str (l : list ascii) : chars (str l) = l.
Proof. apply list_ascii_of_string_of_list_ascii. Qed.

Lemma str_chars (s : string) : str (chars s) = s.
Proof. apply string_of_list_ascii_of_string. Qed.

Lemma chars_app (a b : string) : chars (a +:+ b) = chars a ++ chars b.
Proof.
  induction a as [|c a IH]; simpl; [reflexivity|].
  unfold chars in *. simpl. now rewrite IH.
Qed.

Lemma str_app (a b : list ascii) : str (a ++ b) = str a +:+ str b.
Proof.
  rewrite <- (str_chars (str a +:+ str b)), chars_app, !chars_str.
  reflexivity.
Qed.

Lemma chars_inj (a b : string) : chars a = chars b -> a = b.
Proof. intros H. rewrite <- (str_chars a), <- (str_chars b). now f_equal. Qed.

Lemma isPrefix_spec (p l : list ascii) :
  isPrefix p l = true <-> exists r, l = p ++ r.
Proof.
  revert l. induction p as [|a p IH]; intros l; simpl.
  - split; [intros _; now exists l | reflexivity].
  - destruct l as [|b l].
    + split; [discriminate | intros [r Hr]; discriminate].
    + rewrite andb_true_iff, Ascii.eqb_eq, IH. split.
      * intros [-> [r ->]]. now exists r.
      * intros [r Hr]. injection Hr as -> ->. split; [reflexivity | now exists r].
Qed.

Lemma startsWith_spec (s p : string) :
  startsWith s p = true <-> Spec.hasPrefix p s.
Proof.
  unfold startsWith, Spec.hasPrefix. rewrite isPrefix_spec. split.
  - intros [r Hr]. exists (str r). apply chars_inj.
    now rewrite chars_app, chars_str.
  - intros [rest ->]. exists (chars rest). apply chars_app.
Qed.

Lemma startsWith_false (s p : string) :
  startsWith s p = false <-> ~ Spec.hasPrefix p s.
Proof.
  rewrite <- startsWith_spec. destruct (startsWith s p); split; intros; congruence.
Qed.

Lemma includes_spec (l : list string) (s : string) :
  FileManager.includes l s = true <-> In s l.
Proof.
  unfold FileManager.includes. rewrite existsb_exists. split.
  - intros [x [Hx Heq]]. apply String.eqb_eq in Heq. now subst.
  - intros H. exists s. split; [assumption | apply String.eqb_refl].
Qed.

End StringFacts.

#[global] Instance hasPrefix_dec (p s : string) : Decision (Spec.hasPrefix p s).
Proof.
  destruct (JsString.startsWith s p) eqn:E.
  - left. now apply startsWith_spec.
  - right. now apply startsWith_false.
Defined.

(** ** [FileManager.validateFile] and [FileManager.processFile] *)
Section Validation.
Import FileManager.

Lemma gtb_spec (a b : Q) : gtb a b = true <-> (b < a)%Q.
Proof.
  unfold gtb. rewrite negb_true_iff. split.
  - intros H. apply Qnot_le_lt. intros Hle.
    apply Qle_bool_iff in Hle. congruence.
  - intros H. destruct (Qle_bool a b) eqn:E; [|reflexivity].
    apply Qle_bool_iff in E. exfalso. eapply Qlt_not_le; eassumption.
Qed.

Lemma validateFile_size (cfg : Config) (f : File) :
  (maxFileSize cfg < fileSizeMB f)%Q ->
  validateFile cfg f = Invalid (SizeLimitMessage (maxFileSize cfg)).
Proof. intros H. unfold validateFile. apply gtb_spec in H. now rewrite H. Qed.

Lemma validateFile_within (cfg : Config) (f : File) :
  ~ (maxFileSize cfg < fileSizeMB f)%Q ->
  validateFile cfg f =
    if includes (allowedTypes cfg) (type f) then Valid
    else Invalid UnsupportedFormatMessage.
Proof.
  intros H. unfold validateFile.
  destruct (gtb (fileSizeMB f) (maxFileSize cfg)) eqn:E.
  - apply gtb_spec in E. contradiction.
  - now destruct (includes (allowedTypes cfg) (type f)).
Qed.

End Validation.

(** C1, as stated, fails: a file of 1 040 000 bytes is above a limit of
    1 when a megabyte is taken as 1e6 bytes, and [validateFile] accepts
    it. *)
Lemma validateFile_decimal_megabyte_counterexample :
  ~ (forall (cfg : FileManager.Config) (f : FileManager.File),
       FileManager.validateFile cfg f =
         FileManager.Invalid
           (FileManager.SizeLimitMessage (FileManager.maxFileSize cfg))
       <-> Spec.exceedsLimit (FileManager.size f) (FileManager.maxFileSize cfg)).
Proof.
  intros H.
  pose (cfg := {| FileManager.uploadPath := "{year}/{month}/{day}";
                  FileManager.nameRule := FileManager.original;
                  FileManager.allowedTypes := ["image/png"];
                  FileManager.maxFileSize := 1 |}).
  pose (f := {| FileManager.name := "a.png"; FileManager.type := "image/png";
                FileManager.size := 1040000; FileManager.content := 0 |}).
  destruct (H cfg f) as [_ H2].
  assert (Hex : Spec.exceedsLimit (FileManager.size f) (FileManager.maxFileSize cfg))
    by (vm_compute; reflexivity).
  specialize (H2 Hex). vm_compute in H2. discriminate.
Qed.

(** C1 (amended): [validateFile] returns the size-limit message, which
    carries the configured limit, exactly when
    [sizeBytes / (1024 * 1024) > maxFileSize]; when the size check passes
    it returns the unsupported-format message if the type is not among
    [allowedTypes] and [true] otherwise, so the size check comes first;
    and whenever [validateFile] does not return [true], [processFile]
    returns that message without any call to the compressor. *)
Theorem validateFile_processFile_binary_megabyte
    (cfg : FileManager.Config) (f : FileManager.File)
    (compress : FileManager.File -> Result FileManager.File) :
  let limit := FileManager.maxFileSize cfg in
  let over :=
    (limit < inject_Z (Z.of_N (FileManager.size f)) / inject_Z (1024 * 1024))%Q in
  (FileManager.validateFile cfg f
     = FileManager.Invalid (FileManager.SizeLimitMessage limit) <-> over)
  /\ (~ over -> ~ In (FileManager.type f) (FileManager.allowedTypes cfg) ->
      FileManager.validateFile cfg f
        = FileManager.Invalid FileManager.UnsupportedFormatMessage)
  /\ (~ over -> In (FileManager.type f) (FileManager.allowedTypes cfg) ->
      FileManager.validateFile cfg f = FileManager.Valid)
  /\ (forall m, FileManager.validateFile cfg f = FileManager.Invalid m ->
      FileManager.processFile compress cfg f
        = ({| FileManager.file := None; FileManager.error := Some m |}, [])).
Proof.
  cbv zeta. repeat split.
  - intros H.
    destruct (Qlt_le_dec (FileManager.maxFileSize cfg) (FileManager.fileSizeMB f))
      as [Hlt|Hle]; [exact Hlt|].
    rewrite validateFile_within in H by (now apply Qle_not_lt).
    destruct (FileManager.includes _ _); discriminate.
  - apply validateFile_size.
  - intros Hsize Htype. rewrite validateFile_within by exact Hsize.
    destruct (FileManager.includes _ _) eqn:E; [|reflexivity].
    apply includes_spec in E. contradiction.
  - intros Hsize Htype. rewrite validateFile_within by exact Hsize.
    apply includes_spec in Htype. now rewrite Htype.
  - intros m Hm. unfold FileManager.processFile. now rewrite Hm.
Qed.

(** An oversize file and a file of a type that is not allowed are both
    turned away before the compressor is reached. *)
Example processFile_rejects_oversize :
  FileManager.processFile (fun f => Ok f)
    {| FileManager.uploadPath := ""; FileManager.nameRule := FileManager.original;
       FileManager.allowedTypes := ["image/png"]; FileManager.maxFileSize := 1 |}
    {| FileManager.name := "a.png"; FileManager.type := "image/png";
       FileManager.size := 1048577; FileManager.content := 0 |}
  = ({| FileManager.file := None;
        FileManager.error := Some (FileManager.SizeLimitMessage 1) |}, []).
Proof. reflexivity. Qed.

Example processFile_rejects_type_after_size :
  FileManager.processFile (fun f => Ok f)
    {| FileManager.uploadPath := ""; FileManager.nameRule := FileManager.original;
       FileManager.allowedTypes := ["image/png"]; FileManager.maxFileSize := 1 |}
    {| FileManager.name := "a.zip"; FileManager.type := "application/zip";
       FileManager.size := 1048576; FileManager.content := 0 |}
  = ({| FileManager.file := None;
        FileManager.error := Some FileManager.UnsupportedFormatMessage |}, []).
Proof. reflexivity. Qed.

(** ** The local index of [TelegramStorage] *)
Section LocalIndex.
Import TelegramStorage.

Lemma insertSorted_perm {A} (cmp : A -> A -> Z) (x : A) (l : list A) :
  Permutation (insertSorted cmp x l) (x :: l).
Proof.
  induction l as [|y l IH]; simpl; [reflexivity|].
  destruct (cmp x y <=? 0)%Z; [reflexivity|].
  rewrite IH. apply perm_swap.
Qed.

Lemma sort_perm {A} (cmp : A -> A -> Z) (l : list A) :
  Permutation (sort cmp l) l.
Proof.
  induction l as [|x l IH]; simpl; [reflexivity|].
  rewrite insertSorted_perm. now constructor.
Qed.

Lemma insertSorted_sorted (x : Item.t) (l : list Item.t) :
  StronglySorted newerOrSame l ->
  StronglySorted newerOrSame (insertSorted byLastModifiedDesc x l).
Proof.
  induction 1 as [|y l Hs IH Hy]; simpl.
  - repeat constructor.
  - unfold byLastModifiedDesc at 1.
    destruct (Z.leb_spec (Item.lastModified y - Item.lastModified x) 0) as [Hle|Hgt].
    + constructor; [now constructor|].
      constructor; [unfold newerOrSame; lia|].
      rewrite List.Forall_forall in *. intros z Hz. specialize (Hy z Hz).
      unfold newerOrSame in *. lia.
    + constructor; [exact IH|].
      rewrite List.Forall_forall in *. intros z Hz.
      apply (Permutation_in _ (insertSorted_perm byLastModifiedDesc x l)) in Hz.
      destruct Hz as [<-|Hz]; [unfold newerOrSame; lia | now apply Hy].
Qed.

Lemma sort_sorted (l : list Item.t) :
  StronglySorted newerOrSame (sort byLastModifiedDesc l).
Proof.
  induction l as [|x l IH]; simpl; [constructor | now apply insertSorted_sorted].
Qed.

Lemma map_sorted (l : list Item.t) :
  StronglySorted newerOrSame l ->
  StronglySorted
    (fun a b : Entry.t => (Entry.lastModified b <= Entry.lastModified a)%Z)
    (map toEntry l).
Proof.
  induction 1 as [|y l Hs IH Hy]; simpl; constructor; [exact IH|].
  rewrite List.Forall_forall in *. intros z Hz.
  apply in_map_iff in Hz. destruct Hz as [i [<- Hi]]. exact (Hy i Hi).
Qed.

Lemma sameItem_refl (x : Item.t) : sameItem x x = true.
Proof.
  unfold sameItem. now rewrite !String.eqb_refl, Z.eqb_refl, N.eqb_refl.
Qed.

Lemma sameItem_eq (x y : Item.t) : sameItem x y = true -> x = y.
Proof.
  unfold sameItem. rewrite !andb_true_iff, !String.eqb_eq, Z.eqb_eq, N.eqb_eq.
  destruct x, y; simpl. intros [[[[[-> ->] ->] ->] ->] ->]. reflexivity.
Qed.

(** What [filter] keeps of an array is made of records of the array. *)
Lemma isSublist_filter (f : Item.t -> bool) (l : list Item.t) :
  isSublist (List.filter f l) l = true.
Proof.
  induction l as [|y l IH]; [reflexivity|].
  simpl. destruct (f y) eqn:Ey; simpl.
  - now rewrite sameItem_refl.
  - destruct (List.filter f l) as [|x a] eqn:Ea; [reflexivity|].
    destruct (sameItem x y) eqn:Exy; [|exact IH].
    apply sameItem_eq in Exy. subst y.
    assert (Hin : In x (List.filter f l)) by (rewrite Ea; now left).
    apply filter_In in Hin. destruct Hin as [_ Hfx]. congruence.
Qed.

Lemma isSublist_length (a b : list Item.t) :
  isSublist a b = true -> List.length a <= List.length b.
Proof.
  revert a. induction b as [|y b IH]; intros [|x a]; simpl;
    try lia; try discriminate.
  destruct (sameItem x y); intros H; apply IH in H; simpl in H; lia.
Qed.

(** An array with one more record is not made of records of the array. *)
Lemma isSublist_push (l : list Item.t) (x : Item.t) :
  isSublist (l ++ [x]) l = false.
Proof.
  destruct (isSublist (l ++ [x]) l) eqn:E; [|reflexivity].
  apply isSublist_length in E. rewrite length_app in E. simpl in E. lia.
Qed.

Lemma filter_all (l : list Item.t) :
  List.filter (fun item => JsString.startsWith (Item.key item) "") l = l.
Proof. apply forallb_filter_id, forallb_forall. reflexivity. Qed.

(** The items [listObjects] selects, over a store that holds an array,
    no text or text that cannot be parsed. *)
Lemma listObjects_unfold (prefix : option string) (w : World) :
  (forall null, localStorage w <> NotArray null) ->
  listObjects prefix w =
    (Ok (map toEntry (sort byLastModifiedDesc
       (List.filter
          (fun item => JsString.startsWith (Item.key item)
                         (match prefix with Some p => p | None => "" end))
          (indexOf w)))), w).
Proof.
  intros Hw. unfold listObjects, bind, ret, indexOf, _getLocalIndex.
  destruct (localStorage w) as [| |null|index] eqn:E;
    try (exfalso; now apply (Hw null));
    destruct prefix as [[|c p]|]; simpl; rewrite ?filter_all; reflexivity.
Qed.

(** Over a store that holds another value, [listObjects] throws. *)
Lemma listObjects_throws (prefix : option string) (w : World) (null : bool) :
  localStorage w = NotArray null ->
  exists e, listObjects prefix w = (Throw e, w).
Proof.
  intros E. unfold listObjects, bind, ret, _getLocalIndex. rewrite E.
  destruct prefix as [[|c p]|]; simpl; eexists; reflexivity.
Qed.

Lemma listObjects_same_store (prefix : option string) (w w' : World) :
  localStorage w' = localStorage w ->
  fst (listObjects prefix w') = fst (listObjects prefix w).
Proof.
  intros E. unfold listObjects, bind, ret, _getLocalIndex. rewrite E.
  destruct (localStorage w); destruct prefix as [[|c p]|]; reflexivity.
Qed.

Lemma listObjects_elements (prefix : option string) (w : World)
    (entries : list Entry.t) (entry : Entry.t) :
  fst (listObjects prefix w) = Ok entries -> In entry entries ->
  exists item, In item (indexOf w) /\ entry = toEntry item.
Proof.
  intros Hok H.
  assert (Hw : forall null, localStorage w <> NotArray null).
  { intros null E. destruct (listObjects_throws prefix w null E) as [e He].
    rewrite He in Hok. discriminate. }
  rewrite (listObjects_unfold prefix w Hw) in Hok. simpl in Hok.
  injection Hok as <-.
  apply in_map_iff in H. destruct H as [item [<- Hitem]].
  apply (Permutation_in _ (sort_perm _ _)) in Hitem.
  apply filter_In in Hitem. exists item. tauto.
Qed.

(** [delete] over a store that holds an array. *)
Lemma delete_saved (key : string) (index : list Item.t) (t : list Effect)
    (r : bool) :
  delete key {| localStorage := Saved index; trace := t; room := r |} =
    (Ok tt,
     {| localStorage :=
          Saved (List.filter
                   (fun item => negb (String.eqb (Item.key item) key)) index);
        trace := t ++ [deletionWarning];
        room := r |}).
Proof.
  unfold delete, bind, ret, _getLocalIndex, _saveLocalIndex, fits. simpl.
  rewrite isSublist_filter, orb_true_r. reflexivity.
Qed.

(** [delete] over a store that holds no text, or text that cannot be
    parsed: the empty array is written when there is room for it. *)
Lemma delete_unreadable (key : string) (stored : Stored) (t : list Effect)
    (r : bool) :
  stored = Absent \/ stored = Corrupt ->
  delete key {| localStorage := stored; trace := t; room := r |} =
    (Ok tt,
     if r then {| localStorage := Saved []; trace := t ++ [deletionWarning];
                  room := r |}
     else {| localStorage := stored;
             trace := t ++ [ConsoleError
                              "Failed to save local index: QuotaExceededError";
                            deletionWarning];
             room := r |}).
Proof.
  intros [-> | ->]; destruct r; unfold delete, bind, ret, _getLocalIndex,
    _saveLocalIndex, fits, emit; simpl; rewrite <- ?app_assoc; reflexivity.
Qed.

Lemma delete_throws (key : string) (w : World) (null : bool) :
  localStorage w = NotArray null ->
  delete key w = (Throw (typeError null "index" "filter"), w).
Proof.
  intros E. unfold delete, bind, ret, _getLocalIndex. now rewrite E.
Qed.

(** In every world, [delete] leaves in the store the records it does
    not filter out, and adds no request. *)
Lemma delete_index (key : string) (w : World) :
  indexOf (snd (delete key w))
  = List.filter (fun item => negb (String.eqb (Item.key item) key)) (indexOf w).
Proof.
  destruct w as [stored t r]. destruct stored as [| |null|index].
  - rewrite (delete_unreadable key Absent t r) by now left. now destruct r.
  - rewrite (delete_unreadable key Corrupt t r) by now right. now destruct r.
  - now rewrite (delete_throws key _ null).
  - now rewrite delete_saved.
Qed.

Lemma delete_requests (key : string) (w : World) :
  List.filter isFetch (trace (snd (delete key w))) = List.filter isFetch (trace w).
Proof.
  destruct w as [stored t r]. destruct stored as [| |null|index].
  - rewrite (delete_unreadable key Absent t r) by now left.
    destruct r; simpl; rewrite List.filter_app; simpl; apply app_nil_r.
  - rewrite (delete_unreadable key Corrupt t r) by now right.
    destruct r; simpl; rewrite List.filter_app; simpl; apply app_nil_r.
  - now rewrite (delete_throws key _ null).
  - rewrite delete_saved. simpl. rewrite List.filter_app. simpl. apply app_nil_r.
Qed.

Lemma delete_ok (key : string) (w : World) :
  (forall null, localStorage w <> NotArray null) ->
  fst (delete key w) = Ok tt.
Proof.
  intros Hw. destruct w as [stored t r]. destruct stored as [| |null|index].
  - now rewrite (delete_unreadable key Absent t r) by now left.
  - now rewrite (delete_unreadable key Corrupt t r) by now right.
  - exfalso. now apply (Hw null).
  - now rewrite delete_saved.
Qed.

Lemma delete_store_kind (key : string) (w : World) (null : bool) :
  localStorage (snd (delete key w)) = NotArray null <->
  localStorage w = NotArray null.
Proof.
  destruct w as [stored t r]. destruct stored as [| |null'|index].
  - rewrite (delete_unreadable key Absent t r) by now left. now destruct r.
  - rewrite (delete_unreadable key Corrupt t r) by now right. now destruct r.
  - now rewrite (delete_throws key _ null').
  - now rewrite delete_saved.
Qed.

Lemma filter_key_differs (key : string) (l : list Item.t) :
  List.filter (fun item => negb (String.eqb (Item.key item) key)) l
  = filter (fun item => Item.key item <> key) l.
Proof.
  induction l as [|x l IH]; [reflexivity|].
  simpl. rewrite filter_cons, IH.
  destruct (String.eqb_spec (Item.key x) key) as [E|E]; simpl;
    destruct (decide (Item.key x <> key)); try reflexivity; contradiction.
Qed.

Lemma filter_hasPrefix (p : string) (l : list Item.t) :
  List.filter (fun item => JsString.startsWith (Item.key item) p) l
  = filter (fun item => Spec.hasPrefix p (Item.key item)) l.
Proof.
  induction l as [|x l IH]; [reflexivity|].
  simpl. rewrite filter_cons, IH.
  destruct (JsString.startsWith (Item.key x) p) eqn:E;
    destruct (decide (Spec.hasPrefix p (Item.key x))) as [D|D];
    try reflexivity.
  - apply startsWith_spec in E. contradiction.
  - apply startsWith_spec in D. congruence.
Qed.

End LocalIndex.

(** C3 (what the code does on the claim's failing input): when the text
    stored under the index key parses to a value that is not an array,
    such as [null] or [{"a":1}], [_getLocalIndex] returns that value and
    [delete] throws a [TypeError] at [index.filter], before anything is
    written or logged; beside it, over text that cannot be parsed at
    all, [_getLocalIndex] returns the empty array and [delete]
    resolves. *)
Theorem delete_throws_on_stored_non_array
    (key : string) (t : list TelegramStorage.Effect) (r null : bool) :
  let w := {| TelegramStorage.localStorage := TelegramStorage.NotArray null;
              TelegramStorage.trace := t;
              TelegramStorage.room := r |} in
  let unparsable := {| TelegramStorage.localStorage := TelegramStorage.Corrupt;
                       TelegramStorage.trace := t;
                       TelegramStorage.room := r |} in
  TelegramStorage._getLocalIndex w = (TelegramStorage.Value null, w)
  /\ TelegramStorage.delete key w
     = (Throw (if null then "Cannot read properties of null (reading 'filter')"
               else "index.filter is not a function"), w)
  /\ TelegramStorage._getLocalIndex unparsable
     = (TelegramStorage.Records [], unparsable)
  /\ fst (TelegramStorage.delete key unparsable) = Ok tt.
Proof.
  cbv zeta. split; [reflexivity|]. split; [|split; [reflexivity|]].
  - rewrite (delete_throws key _ null) by reflexivity. now destruct null.
  - now rewrite (delete_unreadable key TelegramStorage.Corrupt t r) by now right.
Qed.

(** X29: over a store that holds an array of records, [delete(key)]
    resolves, leaves in the store exactly the records whose key differs
    from [key], in their order, whether or not the storage has room,
    logs its warning and issues no request, and no later [listObjects]
    returns a record with that key. *)
Theorem delete_removes_stored_records
    (index : list TelegramStorage.Item.t) (t : list TelegramStorage.Effect)
    (r : bool) (key : string) :
  let w := {| TelegramStorage.localStorage := TelegramStorage.Saved index;
              TelegramStorage.trace := t;
              TelegramStorage.room := r |} in
  let kept := filter (fun item => TelegramStorage.Item.key item <> key) index in
  let w' := {| TelegramStorage.localStorage := TelegramStorage.Saved kept;
               TelegramStorage.trace := t ++ [deletionWarning];
               TelegramStorage.room := r |} in
  TelegramStorage.delete key w = (Ok tt, w')
  /\ (forall item, In item kept <->
                   In item index /\ TelegramStorage.Item.key item <> key)
  /\ List.filter isFetch (TelegramStorage.trace w') = List.filter isFetch t
  /\ (forall prefix, exists entries,
        TelegramStorage.listObjects prefix w' = (Ok entries, w')
        /\ forall entry, In entry entries ->
             TelegramStorage.Entry.key entry <> key).
Proof.
  cbv zeta. rewrite delete_saved, filter_key_differs.
  assert (Hin : forall item,
    In item (filter (fun item => TelegramStorage.Item.key item <> key) index)
    <-> In item index /\ TelegramStorage.Item.key item <> key).
  { intros item. rewrite <- filter_key_differs, filter_In, negb_true_iff,
      String.eqb_neq. reflexivity. }
  split; [reflexivity|]. split; [exact Hin|]. split.
  - cbn [TelegramStorage.trace]. rewrite List.filter_app. simpl. apply app_nil_r.
  - intros prefix. eexists. split.
    + apply listObjects_unfold. intros null. discriminate.
    + intros entry H. apply in_map_iff in H. destruct H as [item [<- Hitem]].
      apply (Permutation_in _ (sort_perm _ _)) in Hitem.
      apply filter_In in Hitem. destruct Hitem as [Hitem _].
      unfold indexOf in Hitem. simpl in Hitem. apply Hin in Hitem.
      simpl. tauto.
Qed.

(** Deleting a key that was never indexed, from a store that holds no
    index at all, succeeds as well. *)
Example delete_missing_key :
  TelegramStorage.delete "2024/03/05/a.png" freshWorld
  = (Ok tt,
     {| TelegramStorage.localStorage := TelegramStorage.Saved [];
        TelegramStorage.trace := [deletionWarning];
        TelegramStorage.room := true |}).
Proof. reflexivity. Qed.

(** C6 (what the code does on the claim's failing input): when the text
    stored under the index key parses to a value that is not an array,
    [listObjects] throws a [TypeError], at [index.filter] when a prefix
    is given and at [filtered.sort] otherwise; over text that cannot be
    parsed at all it returns the empty listing. *)
Theorem listObjects_throws_on_stored_non_array
    (prefix : string) (t : list TelegramStorage.Effect) (r null : bool) :
  let w := {| TelegramStorage.localStorage := TelegramStorage.NotArray null;
              TelegramStorage.trace := t;
              TelegramStorage.room := r |} in
  let unparsable := {| TelegramStorage.localStorage := TelegramStorage.Corrupt;
                       TelegramStorage.trace := t;
                       TelegramStorage.room := r |} in
  TelegramStorage.listObjects None w
    = (Throw (if null then "Cannot read properties of null (reading 'sort')"
              else "filtered.sort is not a function"), w)
  /\ (prefix <> "" ->
      TelegramStorage.listObjects (Some prefix) w
      = (Throw (if null then "Cannot read properties of null (reading 'filter')"
                else "index.filter is not a function"), w))
  /\ TelegramStorage.listObjects (Some "") w = TelegramStorage.listObjects None w
  /\ TelegramStorage.listObjects (Some prefix) unparsable = (Ok [], unparsable)
  /\ TelegramStorage.listObjects None unparsable = (Ok [], unparsable).
Proof.
  cbv zeta. split; [now destruct null|]. split; [|split; [reflexivity|split]].
  - intros Hp. destruct prefix as [|c p]; [contradiction|]. now destruct null.
  - now destruct prefix.
  - reflexivity.
Qed.

(** X30: over a store that holds an array of records,
    [listObjects(prefix)] returns exactly the records whose key starts
    with the prefix (all of them when no prefix is given), each projected
    to [{key, url, lastModified, size}], ordered by [lastModified]
    descending; the store itself is left as it was. *)
Theorem listObjects_stored_records
    (index : list TelegramStorage.Item.t) (t : list TelegramStorage.Effect)
    (r : bool) (prefix : option string) :
  let w := {| TelegramStorage.localStorage := TelegramStorage.Saved index;
              TelegramStorage.trace := t;
              TelegramStorage.room := r |} in
  let p := match prefix with Some p => p | None => "" end in
  let selected :=
    filter (fun item => Spec.hasPrefix p (TelegramStorage.Item.key item)) index in
  exists result,
    TelegramStorage.listObjects prefix w = (Ok result, w)
    /\ Permutation result (map TelegramStorage.toEntry selected)
    /\ (prefix = None -> selected = index)
    /\ StronglySorted
         (fun a b => (TelegramStorage.Entry.lastModified b
                      <= TelegramStorage.Entry.lastModified a)%Z) result
    /\ (forall item,
          TelegramStorage.toEntry item
          = {| TelegramStorage.Entry.key := TelegramStorage.Item.key item;
               TelegramStorage.Entry.url := TelegramStorage.Item.url item;
               TelegramStorage.Entry.lastModified :=
                 TelegramStorage.Item.lastModified item;
               TelegramStorage.Entry.size := TelegramStorage.Item.size item |}).
Proof.
  cbv zeta. eexists. split; [|split; [|split; [|split]]].
  - apply listObjects_unfold. intros null. discriminate.
  - unfold indexOf. cbn [TelegramStorage.localStorage].
    rewrite filter_hasPrefix. apply Permutation_map, sort_perm.
  - intros ->. rewrite <- filter_hasPrefix. apply filter_all.
  - apply map_sorted, sort_sorted.
  - reflexivity.
Qed.

(** ** White space *)
Section Blank.
Import JsString.












End Blank.

(** ** [validateStorageConfig] *)
Section StorageConfig.
Import StorageServices.




Lemma unknown_type_lookup (type : string) :
  ~ In type knownTypes -> ~ In type objectPrototypeMembers ->
  getProperty (Own STORAGE_SERVICES) type = Undefined.
Proof.
  intros Hk Hp. unfold getProperty, STORAGE_SERVICES.
  assert (Hn : forall k, In k knownTypes -> String.eqb type k = false).
  { intros k Hin. apply String.eqb_neq. intros ->. contradiction. }
  cbn [assoc].
  rewrite !Hn by (simpl; tauto).
  destruct (existsb (String.eqb type) objectPrototypeMembers) eqn:E;
    [|reflexivity].
  apply existsb_exists in E. destruct E as [k [Hin Heq]].
  apply String.eqb_eq in Heq. subst k. contradiction.
Qed.

End StorageConfig.

(** C5 (what the code does on the claim's failing input): a type tag that
    names a member inherited from [Object.prototype], such as
    ["constructor"], passes the guard [!STORAGE_SERVICES[type]] and then
    makes [getRequiredFields] throw, so [validateStorageConfig] returns
    no [{isValid, message}] at all, whatever the config. *)
Theorem validateStorageConfig_inherited_type_throws
    (config : option (gmap string string)) :
  StorageServices.validateStorageConfig "constructor" config
  = Throw "TypeError: Cannot read properties of undefined (reading 'filter')"
  /\ ~ In "constructor" knownTypes
  /\ forall type, In type StorageServices.objectPrototypeMembers ->
       forall v, StorageServices.validateStorageConfig type config <> Ok v.
Proof.
  split; [reflexivity|]. split.
  - simpl. intuition discriminate.
  - intros type Hin v. simpl in Hin.
    repeat (destruct Hin as [<-|Hin]; [discriminate|]). destruct Hin.
Qed.


(** A config that is partly filled, and one that holds only blanks. *)
Example validateStorageConfig_partial :
  StorageServices.validateStorageConfig "telegram"
    (Some {[ "botToken" := "123:abc" ]})
  = Ok {| StorageServices.isValid := false;
          StorageServices.message := "请完整填写所有必填项，或清空所有配置" |}.
Proof. vm_compute. reflexivity. Qed.

Example validateStorageConfig_blank :
  StorageServices.validateStorageConfig "telegram"
    (Some (<[ "botToken" := "   " ]> {[ "proxyUrl" := "tg.example.org" ]}))
  = Ok {| StorageServices.isValid := true;
          StorageServices.message := "配置为空" |}.
Proof. vm_compute. reflexivity. Qed.

(** ** [FileManager._generateFilename] and [FileManager.generatePath] *)

(** C2 (what the code does on the claim's failing input): the base name
    is cut at the first ['.'] while the extension starts after the last
    one, so the middle of a name with two dots is lost: ["photo.v2.png"]
    becomes ["photo.png"], where the base name [photo.v2], in which every
    character is allowed, followed by [.png] is ["photo.v2.png"]. *)
Theorem generateFilename_original_drops_inner_segments :
  FileManager._generateFilename FileManager.original march5 "photo.v2.png"
    = "photo.png"
  /\ Spec.originalName "photo.v2.png" = "photo.v2.png"
  /\ FileManager._generateFilename FileManager.original march5 "report.v1.png"
     = FileManager._generateFilename FileManager.original march5 "report.v2.png".
Proof. repeat split. Qed.

(** C7 (what the code does on the claim's failing input): each
    placeholder is replaced once, at its first occurrence, so a template
    that repeats a placeholder keeps the later occurrences as they are:
    ["{year}/{year}-{month}"] on 2024-03-05 gives the directory
    ["2024/{year}-03"], where substituting [{year}] gives
    ["2024/2024-03"]. *)
Theorem generatePath_repeated_placeholder :
  FileManager.generatePath (settings "{year}/{year}-{month}" FileManager.original)
    march5 "a.png"
    = "2024/{year}-03/a.png"
  /\ Spec.substitute "{year}/{year}-{month}" march5 = "2024/2024-03".
Proof. split; reflexivity. Qed.

(** C9 (what the code does on the claim's failing input): when
    [Math.random()] returns 0.5, [toString(36)] prints ["0.i"] and
    [substring(2, 10)] leaves the one-character base name ["i"]; when it
    returns 0 the base name is empty. *)
Theorem generateFilename_random_short_token :
  FileManager._generateFilename FileManager.random march5 "a.png" = "i.png"
  /\ FileManager._generateFilename FileManager.random
       {| FileManager.getFullYear := 2024; FileManager.getMonth := 2;
          FileManager.getDate := 5; FileManager.now := 1709600000000;
          FileManager.randomDigits := [] |} "a.png" = ".png".
Proof. split; reflexivity. Qed.

(** *** Runs of a character, segments of a text *)
Section Runs.
Import JsString.
Variable c : ascii.

Lemma eqb_false_neq (x : ascii) : Ascii.eqb x c = false <-> x <> c.
Proof. apply Ascii.eqb_neq. Qed.

Lemma headIs_true (l : list ascii) :
  headIs c l = true <-> exists r, l = c :: r.
Proof.
  destruct l as [|y r]; simpl.
  - split; [discriminate | intros [r H]; discriminate].
  - rewrite Ascii.eqb_eq. split.
    + intros ->. now exists r.
    + intros [r' H]. now injection H.
Qed.

Lemma headIs_collapseRuns (l : list ascii) :
  headIs c (collapseRuns c l) = headIs c l.
Proof.
  induction l as [|x r IH]; [reflexivity|].
  simpl. destruct (Ascii.eqb x c) eqn:Ex; simpl.
  - destruct (headIs c r) eqn:Hr; simpl; [now rewrite IH | exact Ex].
  - exact Ex.
Qed.

Lemma noRepeat_nil : Spec.noRepeat c [].
Proof. intros [|a pre] suf H; discriminate. Qed.

Lemma noRepeat_tail (x : ascii) (l : list ascii) :
  Spec.noRepeat c (x :: l) -> Spec.noRepeat c l.
Proof. intros H pre suf ->. apply (H (x :: pre) suf). reflexivity. Qed.

Lemma noRepeat_cons (x : ascii) (l : list ascii) :
  Spec.noRepeat c l -> (Ascii.eqb x c && headIs c l = false) ->
  Spec.noRepeat c (x :: l).
Proof.
  intros Hl Hx [|a pre] suf H; simpl in H.
  - injection H as -> ->. simpl in Hx.
    now rewrite Ascii.eqb_refl in Hx.
  - injection H as -> ->. now apply (Hl pre suf).
Qed.

Lemma noRepeat_head (x : ascii) (l : list ascii) :
  Spec.noRepeat c (x :: l) -> Ascii.eqb x c && headIs c l = false.
Proof.
  intros H. destruct (Ascii.eqb x c) eqn:Ex; [|reflexivity].
  destruct (headIs c l) eqn:Hl; [|reflexivity].
  apply Ascii.eqb_eq in Ex. apply headIs_true in Hl. destruct Hl as [r ->].
  subst x. exfalso. now apply (H [] r).
Qed.

Lemma noRepeat_segment (pre l suf : list ascii) :
  Spec.noRepeat c (pre ++ l ++ suf) -> Spec.noRepeat c l.
Proof.
  intros H p s ->. apply (H (pre ++ p) (s ++ suf)).
  now rewrite <- !app_assoc.
Qed.

Lemma noRepeat_rev (l : list ascii) :
  Spec.noRepeat c l -> Spec.noRepeat c (rev l).
Proof.
  intros H p s E. apply (H (rev s) (rev p)).
  rewrite <- (rev_involutive l), E, rev_app_distr. simpl.
  now rewrite <- !app_assoc.
Qed.

Lemma collapseRuns_noRepeat (l : list ascii) :
  Spec.noRepeat c (collapseRuns c l).
Proof.
  induction l as [|x r IH]; simpl; [apply noRepeat_nil|].
  destruct (Ascii.eqb x c && headIs c r) eqn:E; [exact IH|].
  apply noRepeat_cons; [exact IH|]. now rewrite headIs_collapseRuns.
Qed.

Lemma collapseRuns_fixed (l : list ascii) :
  Spec.noRepeat c l -> collapseRuns c l = l.
Proof.
  induction l as [|x r IH]; [reflexivity|].
  intros H. simpl. rewrite (noRepeat_head _ _ H).
  f_equal. apply IH. eapply noRepeat_tail, H.
Qed.

Lemma collapseRuns_Forall (P : ascii -> Prop) (l : list ascii) :
  List.Forall P l -> List.Forall P (collapseRuns c l).
Proof.
  induction 1 as [|x r Hx Hr IH]; simpl; [constructor|].
  destruct (Ascii.eqb x c && headIs c r); [exact IH | now constructor].
Qed.

Lemma dropWhileChar_suffix (l : list ascii) :
  exists pre, l = pre ++ dropWhileChar c l.
Proof.
  induction l as [|x r [pre IH]]; simpl; [now exists []|].
  destruct (Ascii.eqb x c).
  - exists (x :: pre). simpl. now f_equal.
  - now exists [].
Qed.

Lemma headIs_dropWhileChar (l : list ascii) :
  headIs c (dropWhileChar c l) = false.
Proof.
  induction l as [|x r IH]; [reflexivity|].
  simpl. destruct (Ascii.eqb x c) eqn:E; [exact IH | simpl; exact E].
Qed.

Lemma dropWhileChar_fixed (l : list ascii) :
  headIs c l = false -> dropWhileChar c l = l.
Proof. destruct l as [|x r]; simpl; [reflexivity | now intros ->]. Qed.

Lemma trimRuns_segment (l : list ascii) :
  exists pre suf, l = pre ++ trimRuns c l ++ suf.
Proof.
  unfold trimRuns.
  destruct (dropWhileChar_suffix l) as [pre Hpre].
  destruct (dropWhileChar_suffix (rev (dropWhileChar c l))) as [suf Hsuf].
  exists pre, (rev suf).
  rewrite <- rev_app_distr, <- Hsuf, rev_involutive. exact Hpre.
Qed.

Lemma headIs_segment_start (l suf : list ascii) :
  headIs c (l ++ suf) = false -> headIs c l = false.
Proof. destruct l as [|x r]; [reflexivity | simpl; tauto]. Qed.

Lemma trimRuns_ends (l : list ascii) :
  headIs c (trimRuns c l) = false /\ headIs c (rev (trimRuns c l)) = false.
Proof.
  unfold trimRuns. split.
  - destruct (dropWhileChar_suffix (rev (dropWhileChar c l))) as [suf Hsuf].
    apply (headIs_segment_start _ (rev suf)).
    rewrite <- rev_app_distr, <- Hsuf, rev_involutive.
    apply headIs_dropWhileChar.
  - rewrite rev_involutive. apply headIs_dropWhileChar.
Qed.

Lemma trimRuns_fixed (l : list ascii) :
  headIs c l = false -> headIs c (rev l) = false -> trimRuns c l = l.
Proof.
  intros H1 H2. unfold trimRuns.
  rewrite (dropWhileChar_fixed l H1), (dropWhileChar_fixed (rev l) H2).
  apply rev_involutive.
Qed.

Lemma Forall_segment (P : ascii -> Prop) (pre l suf : list ascii) :
  List.Forall P (pre ++ l ++ suf) -> List.Forall P l.
Proof.
  intros H. apply List.Forall_app in H. destruct H as [_ H].
  apply List.Forall_app in H. tauto.
Qed.

End Runs.

(** *** Sanitized names *)
Section Sanitize.
Import JsString FileManager.

Lemma keepOrDash_allowed (l : list ascii) : allNameChars (map keepOrDash l).
Proof.
  induction l as [|x r IH]; simpl; constructor; [|exact IH].
  unfold keepOrDash. destruct (isNameChar x) eqn:E; [exact E | reflexivity].
Qed.

Lemma keepOrDash_fixed (l : list ascii) :
  allNameChars l -> map keepOrDash l = l.
Proof.
  induction 1 as [|x r Hx Hr IH]; simpl; [reflexivity|].
  unfold keepOrDash at 1. now rewrite Hx, IH.
Qed.

Lemma sanitizeChars_sanitized (l : list ascii) : sanitized (sanitizeChars l).
Proof.
  unfold sanitizeChars. fold keepOrDash.
  set (m := collapseRuns "-" (map keepOrDash l)).
  destruct (trimRuns_segment "-" m) as [pre [suf Hm]].
  assert (Hall : allNameChars m)
    by (apply collapseRuns_Forall, keepOrDash_allowed).
  assert (Hrep : Spec.noRepeat "-" m) by apply collapseRuns_noRepeat.
  rewrite Hm in Hall, Hrep.
  split; [eapply Forall_segment, Hall|].
  split; [eapply noRepeat_segment, Hrep|].
  apply trimRuns_ends.
Qed.

Lemma sanitizeChars_fixed (l : list ascii) :
  sanitized l -> sanitizeChars l = l.
Proof.
  intros [Hall [Hrep [Hhead Hlast]]]. unfold sanitizeChars. fold keepOrDash.
  rewrite (keepOrDash_fixed l Hall), (collapseRuns_fixed _ l Hrep).
  now apply trimRuns_fixed.
Qed.

Lemma sanitize_idempotent (s : string) : sanitize (sanitize s) = sanitize s.
Proof.
  unfold sanitize. rewrite chars_str. f_equal.
  apply sanitizeChars_fixed, sanitizeChars_sanitized.
Qed.

Lemma sanitize_shape (s : string) : sanitized (chars (sanitize s)).
Proof. unfold sanitize. rewrite chars_str. apply sanitizeChars_sanitized. Qed.

End Sanitize.

(** *** Splitting *)
Section Splitting.
Import JsString.
Variable c : ascii.

Lemma splitChars_nonempty (l : list ascii) : splitChars c l <> [].
Proof.
  induction l as [|x r IH]; simpl; [discriminate|].
  destruct (Ascii.eqb x c); [discriminate|].
  destruct (splitChars c r); [contradiction | discriminate].
Qed.

Lemma splitChars_no_sep (l : list ascii) :
  ~ In c l -> splitChars c l = [l].
Proof.
  induction l as [|x r IH]; [reflexivity|].
  intros H. simpl.
  destruct (Ascii.eqb_spec x c) as [->|Hx]; [exfalso; apply H; now left|].
  rewrite IH; [reflexivity|]. intros Hin. apply H. now right.
Qed.

Lemma splitChars_app (a b : list ascii) :
  splitChars c (a ++ c :: b) = splitChars c a ++ splitChars c b.
Proof.
  induction a as [|x r IH]; simpl.
  - now rewrite Ascii.eqb_refl.
  - destruct (Ascii.eqb x c); [now rewrite IH|].
    rewrite IH. pose proof (splitChars_nonempty r) as Hne.
    destruct (splitChars c r); [contradiction | reflexivity].
Qed.

Lemma last_app_nonempty {A} (xs ys : list A) (d : A) :
  ys <> [] -> List.last (xs ++ ys) d = List.last ys d.
Proof.
  intros H. induction xs as [|x xs IH]; [reflexivity|].
  simpl. destruct (xs ++ ys) eqn:E; [|exact IH].
  apply app_eq_nil in E. destruct E as [_ E]. contradiction.
Qed.

Lemma pop_split_after_sep (a f : list ascii) :
  ~ In c f -> pop (split c (str (a ++ c :: f))) = str f.
Proof.
  intros H. unfold pop, split. rewrite chars_str, splitChars_app, map_app.
  rewrite last_app_nonempty.
  - now rewrite (splitChars_no_sep f H).
  - rewrite (splitChars_no_sep f H). discriminate.
Qed.

Lemma split_no_sep (s : string) : ~ In c (chars s) -> split c s = [s].
Proof.
  intros H. unfold split. rewrite (splitChars_no_sep _ H). simpl.
  now rewrite str_chars.
Qed.

Lemma before_first_sep (l : list ascii) :
  ~ In c l \/ exists a f, l = a ++ c :: f /\ ~ In c a.
Proof.
  induction l as [|x r IH]; [left; intros []|].
  destruct (Ascii.eqb_spec x c) as [->|Hx].
  - right. exists [], r. split; [reflexivity | intros []].
  - destruct IH as [Hno|[a [f [-> Ha]]]].
    + left. intros [E|Hin]; [now apply Hx | contradiction].
    + right. exists (x :: a), f. split; [reflexivity|].
      intros [E|Hin]; [now apply Hx | contradiction].
Qed.

Lemma after_last_sep (l : list ascii) :
  ~ In c l \/ exists a f, l = a ++ c :: f /\ ~ In c f.
Proof.
  induction l as [|x r IH]; [left; intros []|].
  destruct IH as [Hno|[a [f [-> Hf]]]].
  - destruct (Ascii.eqb_spec x c) as [->|Hx].
    + right. now exists [], r.
    + left. intros [E|Hin]; [now apply Hx | contradiction].
  - right. now exists (x :: a), f.
Qed.

Lemma first_split_before_sep (a f : list ascii) :
  ~ In c a -> first (split c (str (a ++ c :: f))) = str a.
Proof.
  intros H. unfold first, split.
  rewrite chars_str, splitChars_app, (splitChars_no_sep a H). reflexivity.
Qed.

End Splitting.

(** The extension the code appends is the text after the final ['.'] of
    the name, and the whole name when it has no ['.']. *)
Lemma extension_after_final_dot (filename : string) :
  (~ In "."%char (JsString.chars filename) /\ Spec.extension filename = filename)
  \/ exists stem ext,
       filename = stem +:+ "." +:+ ext
       /\ ~ In "."%char (JsString.chars ext)
       /\ Spec.extension filename = ext.
Proof.
  destruct (after_last_sep "." (JsString.chars filename)) as [Hno|[a [f [E Hf]]]].
  - left. split; [exact Hno|]. unfold Spec.extension.
    now rewrite split_no_sep.
  - right. exists (JsString.str a), (JsString.str f).
    assert (En : filename = JsString.str (a ++ "."%char :: f))
      by (rewrite <- E; symmetry; apply str_chars).
    split; [|split].
    + rewrite En. change ("."%char :: f) with (["."%char] ++ f).
      now rewrite !str_app.
    + now rewrite chars_str.
    + unfold Spec.extension. rewrite En. now apply pop_split_after_sep.
Qed.

(** The base the code sanitizes under the rule [original] is the text
    before the first ['.'] of the name. *)
Lemma base_before_first_dot (filename : string) :
  (~ In "."%char (JsString.chars filename)
   /\ JsString.first (JsString.split "." filename) = filename)
  \/ exists base rest,
       filename = base +:+ "." +:+ rest
       /\ ~ In "."%char (JsString.chars base)
       /\ JsString.first (JsString.split "." filename) = base.
Proof.
  destruct (before_first_sep "." (JsString.chars filename)) as [Hno|[a [f [E Ha]]]].
  - left. split; [exact Hno|]. now rewrite split_no_sep.
  - right. exists (JsString.str a), (JsString.str f).
    assert (En : filename = JsString.str (a ++ "."%char :: f))
      by (rewrite <- E; symmetry; apply str_chars).
    split; [|split].
    + rewrite En. change ("."%char :: f) with (["."%char] ++ f).
      now rewrite !str_app.
    + now rewrite chars_str.
    + rewrite En. now apply first_split_before_sep.
Qed.

(** *** The extension of a name *)
Section Extensions.
Import JsString.
Variable c : ascii.

Lemma splitChars_afterFinal (l : list ascii) :
  match Spec.afterFinalChars c l with
  | None => splitChars c l = [l]
  | Some tail => exists init, init <> [] /\ splitChars c l = init ++ [tail]
  end.
Proof.
  induction l as [|x r IH]; [reflexivity|].
  simpl. destruct (Spec.afterFinalChars c r) as [tail|].
  - destruct IH as [init [Hne ->]].
    destruct (Ascii.eqb x c).
    + exists ([] :: init). split; [discriminate | reflexivity].
    + destruct init as [|seg segs]; [contradiction|].
      exists ((x :: seg) :: segs). split; [discriminate | reflexivity].
  - rewrite IH. destruct (Ascii.eqb x c).
    + exists [[]]. split; [discriminate | reflexivity].
    + reflexivity.
Qed.

Lemma pop_split_afterFinal (s : string) :
  pop (split c s) = match Spec.afterFinal c s with
                    | Some tail => tail
                    | None => s
                    end.
Proof.
  unfold pop, split, Spec.afterFinal.
  pose proof (splitChars_afterFinal (chars s)) as H.
  destruct (Spec.afterFinalChars c (chars s)) as [tail|]; simpl.
  - destruct H as [init [_ ->]]. rewrite map_app. simpl. apply last_last.
  - rewrite H. simpl. apply str_chars.
Qed.

Lemma afterFinalChars_none (l : list ascii) :
  ~ In c l -> Spec.afterFinalChars c l = None.
Proof.
  induction l as [|x r IH]; [reflexivity|].
  intros H. simpl. rewrite IH by (intros Hin; apply H; now right).
  destruct (Ascii.eqb_spec x c) as [->|Hx]; [|reflexivity].
  exfalso. apply H. now left.
Qed.

Lemma afterFinalChars_some (a f : list ascii) :
  ~ In c f -> Spec.afterFinalChars c (a ++ c :: f) = Some f.
Proof.
  intros H. induction a as [|x r IH]; simpl.
  - now rewrite (afterFinalChars_none f H), Ascii.eqb_refl.
  - now rewrite IH.
Qed.

Lemma afterFinal_none (s : string) :
  ~ In c (chars s) -> Spec.afterFinal c s = None.
Proof. intros H. unfold Spec.afterFinal. now rewrite afterFinalChars_none. Qed.

Lemma afterFinal_some (stem tail : string) :
  ~ In c (chars tail) ->
  Spec.afterFinal c (stem +:+ String c tail) = Some tail.
Proof.
  intros H. unfold Spec.afterFinal. rewrite chars_app.
  change (chars (String c tail)) with (c :: chars tail).
  rewrite afterFinalChars_some by exact H. simpl. now rewrite str_chars.
Qed.

End Extensions.

Lemma pairedWith_lowerChar (ch : ascii) :
  Spec.pairedWith (JsString.chars Spec.capitals) (JsString.chars Spec.smalls) ch
  = JsString.lowerChar ch.
Proof. destruct ch as [[] [] [] [] [] [] [] []]; vm_compute; reflexivity. Qed.

Lemma lowerCased_toLowerCase (s : string) :
  JsString.toLowerCase s = Spec.lowerCased s.
Proof.
  unfold JsString.toLowerCase, Spec.lowerCased. f_equal.
  apply map_ext. intros ch. symmetry. apply pairedWith_lowerChar.
Qed.

Lemma extension_of_code (filename : string) :
  JsString.toLowerCase (JsString.pop (JsString.split "." filename))
  = Spec.extensionOrName filename.
Proof.
  unfold Spec.extensionOrName.
  now rewrite pop_split_afterFinal, lowerCased_toLowerCase.
Qed.

(** ** [TelegramStorage._getSendFunction] *)

(** C4, as stated, fails: the name ["gif"] has no ['.'] and so no
    extension, and the mime type [image/png] starts with [image/] and is
    neither [image/gif], [image/svg+xml] nor [image/x-icon], yet the
    animation endpoint is chosen, not the photo endpoint. *)
Lemma getSendFunction_final_extension_counterexample :
  ~ (forall fileType fileName : string,
       let ext := Spec.finalExtension fileName in
       ~ (ext = Some "gif" \/ ext = Some "webp" \/ fileType = "image/gif") ->
       ~ (fileType = "image/svg+xml" \/ fileType = "image/x-icon") ->
       Spec.hasPrefix "image/" fileType ->
       TelegramStorage._getSendFunction fileType fileName
       = {| TelegramStorage.url := "sendPhoto"; TelegramStorage.type := "photo" |}).
Proof.
  intros H. specialize (H "image/png" "gif"). cbv zeta in H.
  assert (E : TelegramStorage._getSendFunction "image/png" "gif"
              = {| TelegramStorage.url := "sendAnimation";
                   TelegramStorage.type := "animation" |}) by reflexivity.
  rewrite E in H. 
  assert (Hphoto : {| TelegramStorage.url := "sendAnimation";
                      TelegramStorage.type := "animation" |}
                   = {| TelegramStorage.url := "sendPhoto";
                        TelegramStorage.type := "photo" |}).
  { apply H.
    - vm_compute. intros [E1|[E1|E1]]; discriminate.
    - intros [E1|E1]; discriminate.
    - exists "png". reflexivity. }
  discriminate.
Qed.

(** C4 (amended): the send endpoint is chosen in priority order, where
    the extension of a name is the lower-cased text after its final
    ['.'] and, for a name without ['.'], the lower-cased name itself:
    extension [gif] or [webp], or mime [image/gif], gives the animation
    endpoint; otherwise mime [image/svg+xml] or [image/x-icon] gives the
    document endpoint; otherwise the prefixes [image/], [video/] and
    [audio/] give the photo, video and audio endpoints in that order;
    anything else gives the document endpoint; together with the five
    sample pairs.  (No character other than a capital letter has a
    letter of [gif] or [webp] as its lower case, so the comparison is the
    one JavaScript makes on every name.) *)
Theorem getSendFunction_priority (fileType fileName : string) :
  let ext := Spec.extensionOrName fileName in
  let chosen := TelegramStorage._getSendFunction fileType fileName in
  let endpoint u t := {| TelegramStorage.url := u; TelegramStorage.type := t |} in
  let animation := ext = "gif" \/ ext = "webp" \/ fileType = "image/gif" in
  let document := fileType = "image/svg+xml" \/ fileType = "image/x-icon" in
  let image := Spec.hasPrefix "image/" fileType in
  let video := Spec.hasPrefix "video/" fileType in
  let audio := Spec.hasPrefix "audio/" fileType in
  (animation -> chosen = endpoint "sendAnimation" "animation")
  /\ (~ animation -> document -> chosen = endpoint "sendDocument" "document")
  /\ (~ animation -> ~ document -> image -> chosen = endpoint "sendPhoto" "photo")
  /\ (~ animation -> ~ document -> ~ image -> video ->
      chosen = endpoint "sendVideo" "video")
  /\ (~ animation -> ~ document -> ~ image -> ~ video -> audio ->
      chosen = endpoint "sendAudio" "audio")
  /\ (~ animation -> ~ document -> ~ image -> ~ video -> ~ audio ->
      chosen = endpoint "sendDocument" "document")
  /\ (forall stem tail,
        fileName = stem +:+ "." +:+ tail -> ~ In "."%char (JsString.chars tail) ->
        ext = Spec.lowerCased tail)
  /\ (~ In "."%char (JsString.chars fileName) -> ext = Spec.lowerCased fileName)
  /\ TelegramStorage._getSendFunction "image/gif" "a.gif"
       = endpoint "sendAnimation" "animation"
  /\ TelegramStorage._getSendFunction "image/svg+xml" "a.svg"
       = endpoint "sendDocument" "document"
  /\ TelegramStorage._getSendFunction "image/png" "a.png"
       = endpoint "sendPhoto" "photo"
  /\ TelegramStorage._getSendFunction "video/mp4" "a.mp4"
       = endpoint "sendVideo" "video"
  /\ TelegramStorage._getSendFunction "application/zip" "a.zip"
       = endpoint "sendDocument" "document"
  /\ TelegramStorage._getSendFunction "image/png" "photo.WEBP"
       = endpoint "sendAnimation" "animation"
  /\ TelegramStorage._getSendFunction "image/png" "gif"
       = endpoint "sendAnimation" "animation"
  /\ TelegramStorage._getSendFunction "image/jpeg" "gif.jpg"
       = endpoint "sendPhoto" "photo".
Proof.
  cbv zeta. unfold TelegramStorage._getSendFunction.
  rewrite extension_of_code.
  set (ext := Spec.extensionOrName fileName).
  assert (Hanim : (String.eqb ext "gif" || String.eqb ext "webp"
                   || String.eqb fileType "image/gif") = true
                  <-> (ext = "gif" \/ ext = "webp" \/ fileType = "image/gif")).
  { rewrite !orb_true_iff, !String.eqb_eq. tauto. }
  assert (Hdoc : (String.eqb fileType "image/svg+xml"
                  || String.eqb fileType "image/x-icon") = true
                 <-> (fileType = "image/svg+xml" \/ fileType = "image/x-icon")).
  { rewrite !orb_true_iff, !String.eqb_eq. tauto. }
  pose proof (startsWith_spec fileType "image/") as Himg.
  pose proof (startsWith_spec fileType "video/") as Hvid.
  pose proof (startsWith_spec fileType "audio/") as Haud.
  assert (Hdot : forall stem tail,
            fileName = stem +:+ "." +:+ tail ->
            ~ In "."%char (JsString.chars tail) -> ext = Spec.lowerCased tail).
  { intros stem tail -> Htail. subst ext. unfold Spec.extensionOrName.
    change ("." +:+ tail) with (String "."%char tail).
    now rewrite afterFinal_some. }
  assert (Hnodot : ~ In "."%char (JsString.chars fileName) ->
                   ext = Spec.lowerCased fileName).
  { intros Hno. subst ext. unfold Spec.extensionOrName.
    now rewrite afterFinal_none. }
  clearbody ext.
  destruct (String.eqb ext "gif" || String.eqb ext "webp"
            || String.eqb fileType "image/gif");
  destruct (String.eqb fileType "image/svg+xml"
            || String.eqb fileType "image/x-icon");
  destruct (JsString.startsWith fileType "image/");
  destruct (JsString.startsWith fileType "video/");
  destruct (JsString.startsWith fileType "audio/");
  (split; [|split; [|split; [|split; [|split; [|split; [|split; [|split]]]]]]]);
  try exact Hdot; try exact Hnodot;
  try (repeat split; reflexivity);
  intros;
  repeat match goal with
         | H : _ <-> _ |- _ => destruct H
         end;
  try reflexivity; try tauto; exfalso; intuition congruence.
Qed.

(** *** Normalized paths *)
Section Normalize.
Import JsString FileManager.
Variable c : ascii.







End Normalize.

Section FinalComponent.
Import JsString FileManager.





End FinalComponent.

(** *** The words of a name *)
Section Words.
Import JsString FileManager.






















End Words.





(** ** The static accessors of [FileManager] *)
Section Accessors.
Import Statics.

Lemma set_other (h : Heap) (o : Value) (k : string) (x : Value) (i : nat) :
  o <> VRef i -> set h o k x !! i = h !! i.
Proof.
  intros Hne. unfold set. destruct o as [| | |loc]; try reflexivity.
  destruct (h !! loc) as [[props|elems]|]; try reflexivity.
  apply list_lookup_insert_ne. congruence.
Qed.

Lemma push_other (h : Heap) (a : Value) (x : Value) (i : nat) :
  a <> VRef i -> push h a x !! i = h !! i.
Proof.
  intros Hne. unfold push. destruct a as [| | |loc]; try reflexivity.
  destruct (h !! loc) as [[props|elems]|]; try reflexivity.
  apply list_lookup_insert_ne. congruence.
Qed.

Lemma get_fresh (h : Heap) (props : list (string * Value)) (rest : Heap) (k : string) :
  get (h ++ CObject props :: rest) (VRef (List.length h)) k
  = match lookupProp k props with Some v => v | None => VUndefined end.
Proof.
  unfold get. rewrite lookup_app_r by lia. now rewrite Nat.sub_diag.
Qed.

Lemma lookupProp_updateProp (k k' : string) (x : Value)
    (props : list (string * Value)) :
  lookupProp k (updateProp k' x props)
  = if String.eqb k k' then Some x else lookupProp k props.
Proof.
  induction props as [|[k0 v] r IH]; simpl.
  - destruct (String.eqb k k'); reflexivity.
  - destruct (String.eqb_spec k' k0) as [->|Hne]; simpl.
    + destruct (String.eqb k k0); reflexivity.
    + rewrite IH. destruct (String.eqb_spec k k0) as [->|Hne'].
      * apply String.eqb_neq in Hne. rewrite String.eqb_sym in Hne.
        now rewrite Hne.
      * reflexivity.
Qed.

Lemma spreadObject_top_level (h : Heap) (o : Value) :
  let copy := fst (spreadObject h o) in
  let h' := snd (spreadObject h o) in
  copy = VRef (List.length h)
  /\ (forall k, get h' copy k
                = match lookupProp k (ownProps h o) with
                  | Some v => v
                  | None => VUndefined
                  end)
  /\ (forall k x i, (i < List.length h)%nat -> set h' copy k x !! i = h !! i).
Proof.
  cbv zeta. unfold spreadObject, alloc. cbn [fst snd].
  split; [reflexivity|]. split.
  - intros k. apply get_fresh.
  - intros k x i Hi. rewrite set_other by (intros E; injection E; lia).
    now apply lookup_app_l.
Qed.

Lemma getDefaultSettings_shape (g : Globals) (h : Heap) (copy : Value) (h' : Heap) :
  getDefaultSettings g h = Ok (copy, h') ->
  exists elems image props,
    h' = h ++ [CArray elems; CObject image; CObject props]
    /\ copy = VRef (List.length h + 2)
    /\ get h' copy "allowedTypes" = VRef (List.length h)
    /\ get h' copy "image" = VRef (List.length h + 1).
Proof.
  unfold getDefaultSettings. intros H.
  destruct (spreadArray h _) as [[allowedTypes h1]|e] eqn:Ea; [|discriminate].
  assert (Hh1 : exists elems, allowedTypes = VRef (List.length h)
                              /\ h1 = h ++ [CArray elems]).
  { unfold spreadArray, alloc in Ea.
    destruct (get h (DEFAULT_SETTINGS g) "allowedTypes") as [|s|b|loc];
      try discriminate.
    - injection Ea as <- <-. eauto.
    - destruct (h !! loc) as [[props|elems]|]; try discriminate.
      injection Ea as <- <-. eauto. }
  destruct Hh1 as [elems [-> ->]].
  unfold spreadObject, alloc in H. cbn [fst snd] in H.
  injection H as <- <-.
  set (image := ownProps _ _).
  set (props := updateProp "image" _ _).
  exists elems, image, props.
  assert (Hh : (h ++ [CArray elems]) ++ [CObject image] ++ [CObject props]
               = h ++ [CArray elems; CObject image; CObject props])
    by now rewrite <- app_assoc.
  assert (Hlen : List.length ((h ++ [CArray elems]) ++ [CObject image])
                 = (List.length h + 2)%nat)
    by (rewrite !length_app; simpl; lia).
  split; [| split; [|split]].
  - now rewrite <- !app_assoc.
  - rewrite <- Hlen. reflexivity.
  - rewrite get_fresh. subst props. rewrite !lookupProp_updateProp. reflexivity.
  - rewrite get_fresh. subst props. rewrite !lookupProp_updateProp. simpl.
    rewrite length_app. reflexivity.
Qed.

Lemma old_cells (h ext : Heap) (i : nat) :
  (i < List.length h)%nat -> (h ++ ext) !! i = h !! i.
Proof. intros Hi. now apply lookup_app_l. Qed.

End Accessors.


(** C8 (what the code does on the claim's failing input): the accessors
    copy one level only.  [getSupportedStorages()] returns a new object
    whose values are the service descriptions of [STORAGE_SERVICES]
    themselves, so [copy.s3.label = 'changed'] and
    [copy.telegram.fields.push(x)] on one returned value are seen by the
    next call. *)
Theorem getSupportedStorages_shares_nested_objects :
  let g := fst Statics.loaded in
  let h0 := snd Statics.loaded in
  let copy1 := fst (Statics.getSupportedStorages g h0) in
  let h1 := snd (Statics.getSupportedStorages g h0) in
  let h2 := Statics.set h1 (Statics.get h1 copy1 "s3") "label"
              (Statics.VString "changed") in
  let h3 := Statics.push h2 (Statics.getPath h2 copy1 ["telegram"; "fields"])
              (Statics.VString "extra") in
  let copy2 := fst (Statics.getSupportedStorages g h3) in
  let h4 := snd (Statics.getSupportedStorages g h3) in
  copy1 <> copy2
  /\ Statics.getPath h1 copy1 ["s3"; "label"] = Statics.VString "S3兼容存储"
  /\ Statics.getPath h4 copy2 ["s3"; "label"] = Statics.VString "changed"
  /\ Statics.getIndex h1 (Statics.getPath h1 copy1 ["telegram"; "fields"]) 4
     = Statics.VUndefined
  /\ Statics.getIndex h4 (Statics.getPath h4 copy2 ["telegram"; "fields"]) 4
     = Statics.VString "extra"
  /\ Statics.getPath h4 (Statics.STORAGE_SERVICES g) ["s3"; "label"]
     = Statics.VString "changed".
Proof.
  cbv zeta. split; [vm_compute; discriminate|].
  repeat split; vm_compute; reflexivity.
Qed.

(** X28: what the copies do protect: a property written on the returned object
    itself reaches no object that existed before the call, for each of
    the four accessors; [getDefaultSettings] protects its [allowedTypes]
    array and its [image] object in the same way. *)
Theorem accessors_protect_top_level
    (g : Statics.Globals) (h : Statics.Heap) (k : string) (x : Statics.Value)
    (i : nat) :
  (i < List.length h)%nat ->
  (let r := Statics.getNameRules g h in Statics.set (snd r) (fst r) k x !! i = h !! i)
  /\ (let r := Statics.getOutputFormats g h in
      Statics.set (snd r) (fst r) k x !! i = h !! i)
  /\ (let r := Statics.getSupportedStorages g h in
      Statics.set (snd r) (fst r) k x !! i = h !! i)
  /\ (forall copy h',
        Statics.getDefaultSettings g h = Ok (copy, h') ->
        Statics.set h' copy k x !! i = h !! i
        /\ Statics.push h' (Statics.get h' copy "allowedTypes") x !! i = h !! i
        /\ Statics.set h' (Statics.get h' copy "image") k x !! i = h !! i).
Proof.
  intros Hi. cbv zeta.
  split; [apply spreadObject_top_level; exact Hi|].
  split; [apply spreadObject_top_level; exact Hi|].
  split; [apply spreadObject_top_level; exact Hi|].
  intros copy h' H.
  destruct (getDefaultSettings_shape g h copy h' H)
    as [elems [image [props [Hh [-> [-> ->]]]]]].
  rewrite set_other, push_other, set_other
    by (intros E; injection E; lia).
  subst h'. now rewrite old_cells.
Qed.

(** ** More on the generated names and paths *)
Section GeneratedNames.
Import JsString FileManager.

Lemma split_two (c : ascii) (a b : string) :
  ~ In c (chars a) -> ~ In c (chars b) ->
  split c (a +:+ str [c] +:+ b) = [a; b].
Proof.
  intros Ha Hb. unfold split. rewrite !chars_app, chars_str. simpl.
  rewrite splitChars_app, (splitChars_no_sep c _ Ha), (splitChars_no_sep c _ Hb).
  simpl. now rewrite !str_chars.
Qed.

(** With exactly one ['.'] in the name the code and the specification's
    wording agree: the sanitized text before the dot, the dot, and the
    lower-cased text after it. *)
Theorem generateFilename_original_single_dot
    (clock : Environment) (base ext : string) :
  ~ In "."%char (chars base) -> ~ In "."%char (chars ext) ->
  _generateFilename original clock (base +:+ "." +:+ ext)
    = sanitize base +:+ "." +:+ toLowerCase ext
  /\ Spec.originalName (base +:+ "." +:+ ext)
     = sanitize base +:+ "." +:+ toLowerCase ext.
Proof.
  intros Hb He.
  pose proof (split_two "." base ext Hb He) as Hs. simpl in Hs.
  unfold _generateFilename, Spec.originalName, Spec.baseName, Spec.extension.
  rewrite Hs. split; reflexivity.
Qed.

Example generateFilename_my_photo :
  _generateFilename original march5 "My Photo!!.PNG" = "My-Photo.png"
  /\ sanitize "My Photo!!" = "My-Photo"
  /\ sanitize "My-Photo" = "My-Photo".
Proof. repeat split. Qed.

(** The path [_normalizePath] returns has no two separators in a row and
    no separator at either end. *)
Lemma dropLeading_head (c : ascii) (l : list ascii) :
  Spec.noRepeat c l -> headIs c (dropLeading c l) = false.
Proof.
  intros H. destruct l as [|x r]; [reflexivity|]. simpl.
  destruct (Ascii.eqb x c) eqn:E; [|simpl; exact E].
  pose proof (noRepeat_head c x r H) as Hh. now rewrite E in Hh.
Qed.

Lemma dropLeading_suffix (c : ascii) (l : list ascii) :
  exists pre, l = pre ++ dropLeading c l.
Proof.
  destruct l as [|x r]; [now exists []|]. simpl.
  destruct (Ascii.eqb x c); [now exists [x] | now exists []].
Qed.

Lemma dropTrailing_prefix (c : ascii) (l : list ascii) :
  exists suf, l = dropTrailing c l ++ suf.
Proof.
  unfold dropTrailing. destruct (dropLeading_suffix c (rev l)) as [pre H].
  exists (rev pre). rewrite <- rev_app_distr, <- H. symmetry. apply rev_involutive.
Qed.

Lemma headIs_prefix (c : ascii) (l suf : list ascii) :
  headIs c (l ++ suf) = false -> headIs c l = false.
Proof. destruct l; [reflexivity | simpl; tauto]. Qed.

Theorem normalizePath_normal (path : string) :
  let out := chars (_normalizePath path) in
  Spec.noRepeat "/" out
  /\ headIs "/" out = false
  /\ headIs "/" (rev out) = false.
Proof.
  cbv zeta. unfold _normalizePath. rewrite chars_str.
  set (m := collapseRuns "/" (chars path)).
  assert (Hm : Spec.noRepeat "/" m) by apply collapseRuns_noRepeat.
  destruct (dropLeading_suffix "/" m) as [pre Hpre].
  destruct (dropTrailing_prefix "/" (dropLeading "/" m)) as [suf Hsuf].
  assert (Hd : Spec.noRepeat "/" (dropLeading "/" m)).
  { apply (noRepeat_segment "/" pre _ []). now rewrite app_nil_r, <- Hpre. }
  split; [|split].
  - apply (noRepeat_segment "/" [] _ suf). simpl. now rewrite <- Hsuf.
  - apply (headIs_prefix "/" _ suf). rewrite <- Hsuf.
    now apply dropLeading_head.
  - unfold dropTrailing. rewrite rev_involutive.
    apply dropLeading_head, noRepeat_rev, Hd.
Qed.

Lemma splitChars_cons_sep (c : ascii) (l : list ascii) :
  splitChars c (c :: l) = [] :: splitChars c l.
Proof. simpl. now rewrite Ascii.eqb_refl. Qed.

Lemma splitChars_head_sep (c : ascii) (l : list ascii) :
  headIs c l = true -> hd [] (splitChars c l) = [].
Proof.
  intros H. apply headIs_true in H. destruct H as [r ->].
  now rewrite splitChars_cons_sep.
Qed.

Lemma collapseRuns_split (c : ascii) (l : list ascii) :
  hd [] (splitChars c (collapseRuns c l)) = hd [] (splitChars c l)
  /\ List.filter (fun seg => negb (Nat.eqb (List.length seg) 0))
       (tl (splitChars c (collapseRuns c l)))
     = List.filter (fun seg => negb (Nat.eqb (List.length seg) 0))
         (tl (splitChars c l)).
Proof.
  induction l as [|x r [IHh IHt]]; [split; reflexivity|].
  simpl collapseRuns.
  destruct (Ascii.eqb x c) eqn:Ex; simpl andb.
  - apply Ascii.eqb_eq in Ex. subst x.
    destruct (headIs c r) eqn:Hr.
    + rewrite splitChars_cons_sep. simpl hd. simpl tl.
      pose proof (splitChars_head_sep c r Hr) as Hh.
      split; [now rewrite IHh|].
      rewrite IHt.
      pose proof (splitChars_nonempty c r) as Hne.
      destruct (splitChars c r) as [|s ss]; [contradiction|].
      simpl in Hh. subst s. reflexivity.
    + rewrite !splitChars_cons_sep. simpl hd. simpl tl.
      split; [reflexivity|].
      pose proof (splitChars_nonempty c r) as Hne.
      pose proof (splitChars_nonempty c (collapseRuns c r)) as Hne'.
      destruct (splitChars c r) as [|s ss]; [contradiction|].
      destruct (splitChars c (collapseRuns c r)) as [|s' ss']; [contradiction|].
      simpl in *. now rewrite IHh, IHt.
  - simpl. rewrite Ex.
    pose proof (splitChars_nonempty c r) as Hne.
    pose proof (splitChars_nonempty c (collapseRuns c r)) as Hne'.
    destruct (splitChars c r) as [|s ss]; [contradiction|].
    destruct (splitChars c (collapseRuns c r)) as [|s' ss']; [contradiction|].
    simpl in *. now rewrite IHh, IHt.
Qed.

Lemma components_collapseRuns (l : list ascii) :
  components (collapseRuns "/" l) = components l.
Proof.
  unfold components. destruct (collapseRuns_split "/" l) as [Hh Ht].
  pose proof (splitChars_nonempty "/" l) as Hne.
  pose proof (splitChars_nonempty "/" (collapseRuns "/" l)) as Hne'.
  destruct (splitChars "/" l) as [|s ss]; [contradiction|].
  destruct (splitChars "/" (collapseRuns "/" l)) as [|s' ss']; [contradiction|].
  simpl in *. now rewrite Hh, Ht.
Qed.

Lemma components_dropLeading (l : list ascii) :
  components (dropLeading "/" l) = components l.
Proof.
  destruct l as [|x r]; [reflexivity|]. simpl.
  destruct (Ascii.eqb_spec x "/") as [->|Hx]; [|reflexivity].
  unfold components. now rewrite splitChars_cons_sep.
Qed.

Lemma components_dropTrailing (l : list ascii) :
  components (dropTrailing "/" l) = components l.
Proof.
  unfold dropTrailing. destruct (rev l) as [|x r] eqn:E.
  - apply (f_equal (@rev ascii)) in E. rewrite rev_involutive in E. now subst.
  - apply (f_equal (@rev ascii)) in E. rewrite rev_involutive in E. subst l.
    simpl. destruct (Ascii.eqb_spec x "/") as [->|Hx]; [|reflexivity].
    unfold components. rewrite splitChars_app, List.filter_app. simpl.
    now rewrite app_nil_r.
Qed.

(** X26: normalization touches separators only: the nonempty components
    of the normalized path, in order, are those of the text it was
    given. *)
Theorem normalizePath_components (path : string) :
  components (chars (_normalizePath path)) = components (chars path).
Proof.
  unfold _normalizePath. rewrite chars_str.
  now rewrite components_dropTrailing, components_dropLeading,
    components_collapseRuns.
Qed.

(** The sample template on 2024-03-05. *)
Example generatePath_year_month_day :
  generatePath (settings "{year}/{month}/{day}" original) march5 "cat.png"
  = "2024/03/05/cat.png"
  /\ generatePath (settings "/{year}//{month}/{day}/" original) march5 "cat.png"
     = "2024/03/05/cat.png".
Proof. split; reflexivity. Qed.

(** The random base name: at most eight characters, all of them digits
    or lower-case letters, and eight of them as soon as [toString(36)]
    prints eight digits or more. *)
Lemma digitChar_alphanumeric (d : nat) :
  isLower (digitChar d) || isDigit (digitChar d) = true.
Proof.
  unfold digitChar.
  destruct (nth_in_or_default d base36 "0"%char) as [Hin| ->]; [|reflexivity].
  revert Hin. generalize (nth d base36 "0"%char). intros x Hin.
  vm_compute in Hin.
  repeat (destruct Hin as [<-|Hin]; [reflexivity|]). destruct Hin.
Qed.

(** X25: the base name of the rule [random] is the first eight digits
    that [toString(36)] prints: at most eight characters, each a digit or
    a lower-case letter, and eight of them exactly when at least eight
    digits are printed. *)
Theorem random_token_shape (digits : list nat) :
  let token := chars (substring 2 10 (randomToString36 digits)) in
  token = firstn 8 (map digitChar digits)
  /\ (List.length token <= 8)%nat
  /\ List.Forall (fun ch => isLower ch || isDigit ch = true) token
  /\ (List.length token = 8%nat <-> (8 <= List.length digits)%nat).
Proof.
  cbv zeta.
  assert (E : chars (substring 2 10 (randomToString36 digits))
              = firstn 8 (map digitChar digits)).
  { unfold substring. rewrite chars_str. destruct digits as [|d ds]; [reflexivity|].
    unfold randomToString36. now rewrite chars_str. }
  rewrite E. split; [reflexivity|]. split; [|split].
  - rewrite length_firstn. lia.
  - apply List.Forall_forall. intros x Hx.
    assert (Hin : In x (map digitChar digits)).
    { rewrite <- (firstn_skipn 8 (map digitChar digits)).
      apply in_or_app. now left. }
    apply in_map_iff in Hin.
    destruct Hin as [d [<- _]]. apply digitChar_alphanumeric.
  - rewrite length_firstn, length_map. lia.
Qed.

End GeneratedNames.

(** ** [TelegramStorage]: requests and the local index *)
Section BotApi.
Import TelegramStorage TelegramApi.

Lemma world_same (w : World) :
  w = {| localStorage := localStorage w; trace := trace w ++ []; room := room w |}.
Proof. destruct w. simpl. now rewrite app_nil_r. Qed.

Lemma quiet_ret {A} (a : A) : quiet (ret a).
Proof. intros w. exists []. split; [apply world_same | split; reflexivity]. Qed.

Lemma quiet_parsingFailed (e : string) : quiet (parsingFailed e).
Proof. intros w. eexists. split; [reflexivity | split; reflexivity]. Qed.

Lemma getFileInfo_quiet (data : ApiResponse) : quiet (_getFileInfo data).
Proof.
  unfold _getFileInfo.
  destruct (ok data); simpl; [|apply quiet_ret].
  destruct (result data) as [r|]; [|apply quiet_parsingFailed].
  destruct (photo r) as [vs|].
  - destruct (reduce larger vs); [apply quiet_ret | apply quiet_parsingFailed].
  - destruct (video r); [apply quiet_ret|].
    destruct (audio r); [apply quiet_ret|].
    destruct (document r); [apply quiet_ret|].
    destruct (animation r); apply quiet_ret.
Qed.

(** [_getFilePath] issues its one request, adds nothing else that is a
    request, keeps the index, and answers by the network alone. *)
Lemma getFilePath_run (self : Adapter) (net : Network) (fileId : string) (w : World) :
  exists es,
    snd (_getFilePath self net fileId w)
    = {| localStorage := localStorage w;
         trace := trace w
                  ++ Fetch (baseURL self +:+ "/getFile?file_id=" +:+ fileId) :: es;
         room := room w |}
    /\ List.filter isFetch es = []
    /\ forall w0, fst (_getFilePath self net fileId w0)
                  = fst (_getFilePath self net fileId w).
Proof.
  unfold _getFilePath, bind, emit, pathFailed, ret. simpl.
  destruct (net _) as [e|httpOk status text [data|e]]; simpl.
  - eexists. rewrite <- app_assoc. simpl. split; [reflexivity | split; reflexivity].
  - destruct (ok data); [destruct (result data)|]; simpl.
    + exists []. split; [reflexivity | split; reflexivity].
    + eexists. rewrite <- app_assoc. simpl. split; [reflexivity | split; reflexivity].
    + exists []. split; [reflexivity | split; reflexivity].
  - eexists. rewrite <- app_assoc. simpl. split; [reflexivity | split; reflexivity].
Qed.

Lemma filter_isFetch_app (a b : list Effect) :
  List.filter isFetch (a ++ b) = List.filter isFetch a ++ List.filter isFetch b.
Proof. apply List.filter_app. Qed.

(** What [_saveLocalIndex] leaves when [upload] hands it the index with
    the new record: the longer array when the storage has room, and
    otherwise the store as it was and a line on the console. *)
Lemma save_pushed (index : list Item.t) (item : Item.t) (w : World) :
  index = indexOf w -> (forall null, localStorage w <> NotArray null) ->
  snd (_saveLocalIndex (index ++ [item]) w)
  = if room w
    then {| localStorage := Saved (index ++ [item]); trace := trace w;
            room := room w |}
    else {| localStorage := localStorage w;
            trace := trace w
                     ++ [ConsoleError "Failed to save local index: QuotaExceededError"];
            room := room w |}.
Proof.
  intros -> Hw. unfold _saveLocalIndex, fits, emit, indexOf.
  destruct (room w) eqn:Er; [reflexivity|].
  destruct (localStorage w) as [| |null|old] eqn:Es; simpl; try reflexivity.
  now rewrite isSublist_push.
Qed.

(** How a run of [upload] ends: either it fails with the store as it
    was, or it succeeds, with one record appended when the storage has
    room for it. *)
Lemma upload_run (self : Adapter) (net : Network)
    (env : FileManager.Environment) (savedAt : Z) (file : FileManager.File)
    (w : World) :
  let key := FileManager.generatePath (fileManager self) env (FileManager.name file) in
  (exists m es,
      upload self net env savedAt file w
      = (Throw m, {| localStorage := localStorage w; trace := trace w ++ es;
                     room := room w |})
      /\ (List.filter isFetch es = [Fetch (sendRequest self file)]
          \/ exists fileId,
               List.filter isFetch es
               = [Fetch (sendRequest self file);
                  Fetch (baseURL self +:+ "/getFile?file_id=" +:+ fileId)]))
  \/ (exists fileId filePath size es,
        let address := fileDomain self +:+ "/file/bot" +:+ botToken self
                       +:+ "/" +:+ filePath in
        let record := {| Item.key := key; Item.url := address;
                         Item.fileId := fileId; Item.filePath := filePath;
                         Item.lastModified := savedAt; Item.size := size |} in
        upload self net env savedAt file w
        = (Ok {| Uploaded.url := address; Uploaded.key := key;
                 Uploaded.fileId := fileId; Uploaded.filePath := filePath |},
           if room w
           then {| localStorage := Saved (indexOf w ++ [record]);
                   trace := trace w ++ es; room := room w |}
           else {| localStorage := localStorage w;
                   trace := trace w ++ es
                     ++ [ConsoleError "Failed to save local index: QuotaExceededError"];
                   room := room w |})
        /\ (forall null, localStorage w <> NotArray null)
        /\ filePath <> ""
        /\ fst (_getFilePath self net fileId w) = Some filePath
        /\ List.filter isFetch es
           = [Fetch (sendRequest self file);
              Fetch (baseURL self +:+ "/getFile?file_id=" +:+ fileId)]).
Proof.
  cbv zeta. unfold upload, bind. fold (sendRequest self file).
  unfold emit. cbn [fst snd localStorage trace room].
  destruct (net (sendRequest self file)) as [e|[|] status text [data|e]];
    try (left; eexists _, [Fetch (sendRequest self file)];
         split; [reflexivity | left; reflexivity]).
  destruct (ok data) eqn:Eok; cbn [negb]; cbv beta iota;
    [|left; eexists _, [Fetch (sendRequest self file)];
      split; [reflexivity | left; reflexivity]].
  match goal with
  | |- context [_getFileInfo data ?ww] =>
      destruct (getFileInfo_quiet data ww) as [es1 [Hw2 [Hq1 _]]];
      destruct (_getFileInfo data ww) as [[info|] w2] eqn:E1
  end; cbn [snd localStorage trace room] in Hw2; subst w2; cbv beta iota.
  2:{ left. eexists _, (Fetch (sendRequest self file) :: es1). split.
      - unfold ret. f_equal. f_equal. now rewrite <- app_assoc.
      - left. simpl. now rewrite Hq1. }
  match goal with
  | |- context [_getFilePath self net ?id ?ww] =>
      destruct (getFilePath_run self net id ww) as [es2 [Hw3 [Hq2 Hind]]];
      destruct (_getFilePath self net id ww) as [path w3] eqn:E2
  end; cbn [snd localStorage trace room] in Hw3; subst w3; cbv beta iota.
  set (es := Fetch (sendRequest self file) :: es1
       ++ Fetch (baseURL self +:+ "/getFile?file_id=" +:+ Details.file_id info) :: es2).
  assert (Hfetches :
    List.filter isFetch es
    = [Fetch (sendRequest self file);
       Fetch (baseURL self +:+ "/getFile?file_id=" +:+ Details.file_id info)]).
  { subst es. simpl. rewrite filter_isFetch_app, Hq1. simpl. now rewrite Hq2. }
  assert (Htrace :
    ((trace w ++ [Fetch (sendRequest self file)]) ++ es1)
      ++ Fetch (baseURL self +:+ "/getFile?file_id=" +:+ Details.file_id info) :: es2
    = trace w ++ es).
  { subst es. now rewrite <- !app_assoc. }
  rewrite Htrace.
  destruct path as [path|].
  2:{ left. eexists _, es. split; [reflexivity|]. right. eexists. exact Hfetches. }
  destruct (JsString.truthy path) eqn:Etruthy; cbn [negb]; cbv beta iota.
  2:{ left. eexists _, es. split; [reflexivity|]. right. eexists. exact Hfetches. }
  unfold _getLocalIndex at 1. cbn [fst snd localStorage trace room].
  destruct (localStorage w) as [| |null|index] eqn:Es.
  3:{ left. eexists _, es. split; [reflexivity|]. right. eexists. exact Hfetches. }
  all: right; eexists (Details.file_id info), path, _, es;
    (split; [|split; [|split; [|split]]]);
    [ | intros null; discriminate
      | intros ->; discriminate
      | rewrite (Hind w); reflexivity
      | exact Hfetches ].
  all: unfold _getLocalIndex, _saveLocalIndex, fits, emit, ret, indexOf;
    cbn [localStorage trace room fst snd]; rewrite ?Es;
    cbv beta iota; cbn [localStorage trace room fst snd];
    rewrite ?isSublist_push, ?orb_false_r;
    destruct (room w); cbn [fst snd]; rewrite <- ?app_assoc; reflexivity.
Qed.


Lemma getFilePath_answer (self : Adapter) (net : Network) (fileId : string)
    (w w0 : World) :
  fst (_getFilePath self net fileId w0) = fst (_getFilePath self net fileId w).
Proof. destruct (getFilePath_run self net fileId w) as [es [_ [_ H]]]. apply H. Qed.

Lemma sample_upload :
  upload sampleAdapter sampleNetwork march5 1709600001000 samplePng freshWorld
  = (Ok sampleUploaded, uploadedWorld).
Proof. reflexivity. Qed.

Lemma offline_upload :
  upload sampleAdapter offline march5 1709600001000 samplePng freshWorld
  = (Throw "Failed to fetch", offlineWorld).
Proof. reflexivity. Qed.

End BotApi.

(** X1: a failed [upload] leaves the local index as it was, so every
    listing is unchanged; it has sent the file once and asked [getFile]
    at most once. *)
Theorem upload_failure_keeps_index
    (self : TelegramApi.Adapter) (net : TelegramApi.Network)
    (env : FileManager.Environment) (savedAt : Z) (file : FileManager.File)
    (w w' : TelegramStorage.World) (m : string) :
  TelegramApi.upload self net env savedAt file w = (Throw m, w') ->
  TelegramStorage.localStorage w' = TelegramStorage.localStorage w
  /\ (forall prefix,
        fst (TelegramStorage.listObjects prefix w')
        = fst (TelegramStorage.listObjects prefix w))
  /\ exists later,
       List.filter isFetch (TelegramStorage.trace w')
       = List.filter isFetch (TelegramStorage.trace w)
         ++ TelegramStorage.Fetch (sendRequest self file) :: later
       /\ List.length later <= 1.
Proof.
  intros H.
  destruct (upload_run self net env savedAt file w)
    as [[m' [es [E Hf]]]|[fileId [filePath [size [es [E _]]]]]];
    cbv zeta in E; rewrite E in H; [|discriminate].
  injection H as <- <-. cbn [TelegramStorage.localStorage TelegramStorage.trace].
  split; [reflexivity|]. split.
  - intros prefix. now apply listObjects_same_store.
  - rewrite List.filter_app.
    destruct Hf as [->|[fileId ->]]; eexists; (split; [reflexivity | simpl; lia]).
Qed.

Lemma upload_failure_keeps_index_witness :
  TelegramStorage.localStorage offlineWorld
  = TelegramStorage.localStorage freshWorld.
Proof.
  exact (proj1 (upload_failure_keeps_index sampleAdapter offline march5
                  1709600001000 samplePng freshWorld offlineWorld
                  "Failed to fetch" offline_upload)).
Defined.

(** X2: a successful [upload] returns the generated path as key and the
    URL [fileDomain/file/bot<token>/<filePath>] with a nonempty path,
    after two requests: the send request, then [getFile] for the
    returned file id.  When [localStorage] has room, the store then
    holds the records it held followed by one record with the returned
    key and URL; when it has none, the store is as it was and the failed
    write is on the console, while the upload has succeeded all the
    same. *)
Theorem upload_success_appends_record
    (self : TelegramApi.Adapter) (net : TelegramApi.Network)
    (env : FileManager.Environment) (savedAt : Z) (file : FileManager.File)
    (w w' : TelegramStorage.World) (r : TelegramApi.Uploaded.t) :
  TelegramApi.upload self net env savedAt file w = (Ok r, w') ->
  (exists size,
      let record :=
        {| TelegramStorage.Item.key := TelegramApi.Uploaded.key r;
           TelegramStorage.Item.url := TelegramApi.Uploaded.url r;
           TelegramStorage.Item.fileId := TelegramApi.Uploaded.fileId r;
           TelegramStorage.Item.filePath := TelegramApi.Uploaded.filePath r;
           TelegramStorage.Item.lastModified := savedAt;
           TelegramStorage.Item.size := size |} in
      (TelegramStorage.room w = true ->
         TelegramStorage.localStorage w'
         = TelegramStorage.Saved (indexOf w ++ [record]))
      /\ (TelegramStorage.room w = false ->
            TelegramStorage.localStorage w' = TelegramStorage.localStorage w
            /\ In (TelegramStorage.ConsoleError
                     "Failed to save local index: QuotaExceededError")
                  (TelegramStorage.trace w')))
  /\ TelegramApi.Uploaded.key r
     = FileManager.generatePath (TelegramApi.fileManager self) env
         (FileManager.name file)
  /\ TelegramApi.Uploaded.url r
     = TelegramApi.fileDomain self +:+ "/file/bot" +:+ TelegramApi.botToken self
       +:+ "/" +:+ TelegramApi.Uploaded.filePath r
  /\ TelegramApi.Uploaded.filePath r <> ""
  /\ List.filter isFetch (TelegramStorage.trace w')
     = List.filter isFetch (TelegramStorage.trace w)
       ++ [TelegramStorage.Fetch (sendRequest self file);
           TelegramStorage.Fetch
             (TelegramApi.baseURL self +:+ "/getFile?file_id="
              +:+ TelegramApi.Uploaded.fileId r)].
Proof.
  intros H.
  destruct (upload_run self net env savedAt file w)
    as [[m' [es [E Hf]]]|[fileId [filePath [size [es [E [_ [Hp [_ Hf]]]]]]]]];
    cbv zeta in E; rewrite E in H; [discriminate|].
  injection H as <- <-.
  cbn [TelegramApi.Uploaded.key TelegramApi.Uploaded.url
       TelegramApi.Uploaded.fileId TelegramApi.Uploaded.filePath].
  split; [exists size; cbv zeta; split; intros Hr; rewrite Hr|].
  - reflexivity.
  - split; [reflexivity|]. cbn [TelegramStorage.trace].
    apply in_or_app. right. apply in_or_app. right. now left.
  - repeat (split; [reflexivity || exact Hp|]).
    destruct (TelegramStorage.room w); cbn [TelegramStorage.trace];
      rewrite !List.filter_app, Hf; simpl; now rewrite ?app_nil_r.
Qed.

Lemma upload_success_appends_record_witness :
  TelegramApi.Uploaded.key sampleUploaded
  = FileManager.generatePath (TelegramApi.fileManager sampleAdapter) march5
      (FileManager.name samplePng).
Proof.
  exact (proj1 (proj2 (upload_success_appends_record sampleAdapter sampleNetwork
                         march5 1709600001000 samplePng freshWorld uploadedWorld
                         sampleUploaded sample_upload))).
Defined.





(** ** [_getFileInfo], [_parseError], [testConnection] *)
Section Answers.
Import TelegramStorage TelegramApi.

(** The variant [reduce] keeps is one of the variants and none is
    larger. *)
Lemma fold_larger (r : list FileObject.t) (x : FileObject.t) :
  (forall q, In q (x :: r) -> FileObject.file_size q <> None) ->
  In (fold_left larger r x) (x :: r)
  /\ forall q a b,
       In q (x :: r) -> FileObject.file_size q = Some a ->
       FileObject.file_size (fold_left larger r x) = Some b -> (a <= b)%N.
Proof.
  revert x. induction r as [|y r IH]; intros x Hdef.
  - simpl. split; [now left|].
    intros q a b [<-|[]] Ha Hb. rewrite Ha in Hb. injection Hb as <-. lia.
  - simpl fold_left.
    assert (Hx : FileObject.file_size x <> None) by (apply Hdef; now left).
    assert (Hy : FileObject.file_size y <> None) by (apply Hdef; right; now left).
    destruct (FileObject.file_size x) as [sx|] eqn:Ex; [|contradiction].
    destruct (FileObject.file_size y) as [sy|] eqn:Ey; [|contradiction].
    assert (Hl : In (larger x y) [x; y]
                 /\ exists sl, FileObject.file_size (larger x y) = Some sl
                               /\ (sx <= sl)%N /\ (sy <= sl)%N).
    { unfold larger, sizeGt. rewrite Ex, Ey.
      destruct (N.ltb_spec sy sx).
      - split; [now left|]. exists sx. rewrite Ex. repeat split; lia.
      - split; [right; now left|]. exists sy. rewrite Ey. repeat split; lia. }
    destruct Hl as [Hin [sl [El [Hsx Hsy]]]].
    destruct (IH (larger x y)) as [IHin IHmax].
    { intros q [<-|Hq]; [congruence|]. apply Hdef. right. now right. }
    split.
    + destruct IHin as [E|Hr]; [|right; now right].
      rewrite <- E. destruct Hin as [<-|[<-|[]]]; [now left | right; now left].
    + intros q a b Hq Ha Hb.
      assert (Hsl : (sl <= b)%N) by (apply (IHmax (larger x y) sl b); [now left | exact El | exact Hb]).
      destruct Hq as [<-|[<-|Hq]].
      * rewrite Ex in Ha. injection Ha as <-. lia.
      * rewrite Ey in Ha. injection Ha as <-. lia.
      * apply (IHmax q a b); [now right | exact Ha | exact Hb].
Qed.

Lemma parseError_nonempty (m : string) : _parseError m <> "".
Proof.
  unfold _parseError.
  repeat match goal with
         | |- context [if ?b then _ else _] => destruct b eqn:?
         end; try discriminate.
  unfold JsString.truthy in *. intros ->. discriminate.
Qed.

End Answers.

(** X6: for a photo answer whose variants all report a size,
    [_getFileInfo] returns the details of one of the variants, and no
    variant is larger than it. *)
Theorem getFileInfo_largest_photo
    (data : TelegramApi.ApiResponse) (payload : TelegramApi.Payload)
    (variants : list TelegramApi.FileObject.t) (w : TelegramStorage.World) :
  TelegramApi.ok data = true ->
  TelegramApi.result data = Some payload ->
  TelegramApi.photo payload = Some variants ->
  variants <> [] ->
  (forall q, In q variants -> TelegramApi.FileObject.file_size q <> None) ->
  exists p,
    In p variants
    /\ fst (TelegramApi._getFileInfo data w) = Some (TelegramApi.getFileDetails p)
    /\ forall q a b,
         In q variants ->
         TelegramApi.FileObject.file_size q = Some a ->
         TelegramApi.FileObject.file_size p = Some b -> (a <= b)%N.
Proof.
  intros Hok Hres Hphoto Hne Hdef.
  destruct variants as [|x r]; [contradiction|].
  destruct (fold_larger r x Hdef) as [Hin Hmax].
  exists (fold_left TelegramApi.larger r x). split; [exact Hin|]. split.
  - unfold TelegramApi._getFileInfo. rewrite Hok, Hres, Hphoto. reflexivity.
  - exact Hmax.
Qed.

Lemma getFileInfo_largest_photo_witness :
  exists p,
    In p [variant "small" 100; variant "large" 900]
    /\ fst (TelegramApi._getFileInfo photoAnswer freshWorld)
       = Some (TelegramApi.getFileDetails p)
    /\ forall q a b,
         In q [variant "small" 100; variant "large" 900] ->
         TelegramApi.FileObject.file_size q = Some a ->
         TelegramApi.FileObject.file_size p = Some b -> (a <= b)%N.
Proof.
  apply (getFileInfo_largest_photo photoAnswer _ _ freshWorld
           eq_refl eq_refl eq_refl).
  - discriminate.
  - intros q [<-|[<-|[]]]; discriminate.
Defined.

(** X7: [_getFileInfo] returns [null] exactly when the answer is not
    [ok], has no [result], has an empty [photo] array (whatever else it
    carries), or has none of [photo], [video], [audio], [document],
    [animation]; it issues no request and leaves the index alone. *)
Theorem getFileInfo_null_cases
    (data : TelegramApi.ApiResponse) (w : TelegramStorage.World) :
  (fst (TelegramApi._getFileInfo data w) = None <->
     TelegramApi.ok data = false
     \/ TelegramApi.result data = None
     \/ exists payload,
          TelegramApi.result data = Some payload
          /\ (TelegramApi.photo payload = Some []
              \/ (TelegramApi.photo payload = None
                  /\ TelegramApi.video payload = None
                  /\ TelegramApi.audio payload = None
                  /\ TelegramApi.document payload = None
                  /\ TelegramApi.animation payload = None)))
  /\ TelegramStorage.localStorage (snd (TelegramApi._getFileInfo data w))
     = TelegramStorage.localStorage w
  /\ List.filter isFetch (TelegramStorage.trace (snd (TelegramApi._getFileInfo data w)))
     = List.filter isFetch (TelegramStorage.trace w).
Proof.
  split.
  - unfold TelegramApi._getFileInfo.
    destruct (TelegramApi.ok data); simpl; [|split; [intros _; now left | reflexivity]].
    destruct (TelegramApi.result data) as [payload|]; simpl;
      [|split; [intros _; right; now left | reflexivity]].
    destruct (TelegramApi.photo payload) as [[|x r]|] eqn:Ep; simpl.
    + split; [|reflexivity]. intros _. right. right. exists payload.
      split; [reflexivity | now left].
    + split; [discriminate|].
      intros [H|[H|[p [Hp [H|[H _]]]]]]; try discriminate;
        injection Hp as <-; congruence.
    + destruct (TelegramApi.video payload) eqn:Ev;
      [|destruct (TelegramApi.audio payload) eqn:Ea;
        [|destruct (TelegramApi.document payload) eqn:Ed;
          [|destruct (TelegramApi.animation payload) eqn:En]]]; simpl;
      try (split; [discriminate|];
           intros [H|[H|[p [Hp [H|[_ [H1 [H2 [H3 H4]]]]]]]]]; try discriminate;
           injection Hp as <-; congruence).
      split; [|reflexivity]. intros _. right. right. exists payload.
      split; [reflexivity|]. right. repeat split; assumption.
  - destruct (getFileInfo_quiet data w) as [es [Hw [Hq _]]].
    rewrite Hw. simpl. split; [reflexivity|].
    now rewrite List.filter_app, Hq, app_nil_r.
Qed.

(** X8: [_parseError] never returns the empty text, returns a message
    that holds none of the known phrases as it is, and maps its own
    results to themselves. *)
Theorem parseError_classification (m : string) :
  TelegramApi._parseError m <> ""
  /\ TelegramApi._parseError (TelegramApi._parseError m) = TelegramApi._parseError m
  /\ (m <> "" ->
      (forall phrase,
         In phrase ["Unauthorized"; "chat not found"; "bot was kicked";
                    "not enough rights"; "file is too big"; "NetworkError";
                    "fetch"] ->
         TelegramApi.includes m phrase = false) ->
      TelegramApi._parseError m = m).
Proof.
  split; [apply parseError_nonempty|]. split.
  - unfold TelegramApi._parseError at 2 3.
    destruct (TelegramApi.includes m "Unauthorized") eqn:E1; [reflexivity|].
    destruct (TelegramApi.includes m "chat not found") eqn:E2; [reflexivity|].
    destruct (TelegramApi.includes m "bot was kicked") eqn:E3; [reflexivity|].
    destruct (TelegramApi.includes m "not enough rights") eqn:E4; [reflexivity|].
    destruct (TelegramApi.includes m "file is too big") eqn:E5; [reflexivity|].
    destruct (TelegramApi.includes m "NetworkError" || TelegramApi.includes m "fetch")
      eqn:E6; [reflexivity|].
    destruct (JsString.truthy m) eqn:E7; [|reflexivity].
    unfold TelegramApi._parseError. now rewrite E1, E2, E3, E4, E5, E6, E7.
  - intros Hne Hnone. unfold TelegramApi._parseError.
    rewrite !Hnone by (simpl; tauto). simpl.
    unfold JsString.truthy. apply String.eqb_neq in Hne. now rewrite Hne.
Qed.

(** X9: [testConnection] issues exactly one request, to [getMe], never
    touches the index, reports success exactly when the answer parses
    and says [ok], and otherwise carries a nonempty message. *)
Theorem testConnection_outcome
    (self : TelegramApi.Adapter) (net : TelegramApi.Network)
    (w : TelegramStorage.World) :
  let outcome := fst (TelegramApi.testConnection self net w) in
  let w' := snd (TelegramApi.testConnection self net w) in
  TelegramStorage.localStorage w' = TelegramStorage.localStorage w
  /\ TelegramStorage.trace w'
     = TelegramStorage.trace w
       ++ [TelegramStorage.Fetch (TelegramApi.baseURL self +:+ "/getMe")]
  /\ (TelegramApi.success outcome = true <->
      exists httpOk status text data,
        net (TelegramApi.baseURL self +:+ "/getMe")
        = TelegramApi.Http httpOk status text (Ok data)
        /\ TelegramApi.ok data = true)
  /\ (TelegramApi.success outcome = false ->
      exists m, TelegramApi.message outcome = Some m /\ m <> "").
Proof.
  cbv zeta. unfold TelegramApi.testConnection, TelegramStorage.bind,
    TelegramStorage.emit, TelegramStorage.ret.
  cbn [fst snd TelegramStorage.localStorage TelegramStorage.trace].
  destruct (net _) as [e|httpOk status text [data|e]] eqn:En;
    [| destruct (TelegramApi.ok data) eqn:Eok |];
    cbn [fst snd TelegramStorage.localStorage TelegramStorage.trace
         TelegramApi.success TelegramApi.message];
    (split; [reflexivity|]); (split; [reflexivity|]); split.
  - split; [discriminate | intros [h [s [t [d [H _]]]]]; discriminate].
  - intros _. eexists. split; [reflexivity | apply parseError_nonempty].
  - split; [|reflexivity]. intros _. now exists httpOk, status, text, data.
  - discriminate.
  - split; [discriminate|]. intros [h [s [t [d [H Hd]]]]].
    injection H as _ _ _ <-. congruence.
  - intros _. eexists. split; [reflexivity|].
    destruct (TelegramApi.description data) as [d|]; [|discriminate].
    destruct (JsString.truthy d) eqn:Ed; [|discriminate].
    unfold JsString.truthy in Ed. intros ->. discriminate.
  - split; [discriminate | intros [h [s [t [d [H _]]]]]; discriminate].
  - intros _. eexists. split; [reflexivity | apply parseError_nonempty].
Qed.

(** ** More on the local index *)
Section IndexAlgebra.
Import TelegramStorage.

Lemma filter_twice {A} (f : A -> bool) (l : list A) :
  List.filter f (List.filter f l) = List.filter f l.
Proof.
  apply forallb_filter_id, forallb_forall. intros x Hx.
  apply filter_In in Hx. tauto.
Qed.

Lemma filter_swap {A} (f g : A -> bool) (l : list A) :
  List.filter f (List.filter g l) = List.filter g (List.filter f l).
Proof.
  induction l as [|x l IH]; [reflexivity|]. simpl.
  destruct (f x) eqn:Ef, (g x) eqn:Eg; simpl; rewrite ?Ef, ?Eg, IH; reflexivity.
Qed.


(** Ahead of a list that holds nothing newer, the record goes first. *)
Lemma insertSorted_first (x : Item.t) (l : list Item.t) :
  List.Forall (newerOrSame x) l -> insertSorted byLastModifiedDesc x l = x :: l.
Proof.
  intros H. destruct l as [|y r]; [reflexivity|]. simpl.
  apply List.Forall_inv in H. unfold newerOrSame in H.
  unfold byLastModifiedDesc.
  destruct (Z.leb_spec (Item.lastModified y - Item.lastModified x) 0); [reflexivity | lia].
Qed.

Lemma sort_fixed (l : list Item.t) :
  StronglySorted newerOrSame l -> sort byLastModifiedDesc l = l.
Proof.
  induction 1 as [|x l Hs IH Hx]; [reflexivity|].
  simpl. rewrite IH. now apply insertSorted_first.
Qed.



End IndexAlgebra.

(** X10: [delete] is idempotent on the index, and deletions of two keys
    commute. *)
Theorem delete_idempotent_and_commutes
    (w : TelegramStorage.World) (key other : string) :
  indexOf (snd (TelegramStorage.delete key (snd (TelegramStorage.delete key w))))
  = indexOf (snd (TelegramStorage.delete key w))
  /\ indexOf (snd (TelegramStorage.delete key (snd (TelegramStorage.delete other w))))
     = indexOf (snd (TelegramStorage.delete other (snd (TelegramStorage.delete key w)))).
Proof.
  rewrite !delete_index.
  split; [apply filter_twice | apply filter_swap].
Qed.


(** X12: over a stored index that is already ordered from newest to
    oldest, the listing keeps the order of the index: records of the
    same instant are never swapped. *)
Theorem listObjects_keeps_order_of_ordered_index
    (index : list TelegramStorage.Item.t) (t : list TelegramStorage.Effect)
    (r : bool) :
  StronglySorted newerOrSame index ->
  fst (TelegramStorage.listObjects None
         {| TelegramStorage.localStorage := TelegramStorage.Saved index;
            TelegramStorage.trace := t;
            TelegramStorage.room := r |})
  = Ok (map TelegramStorage.toEntry index).
Proof.
  intros H. rewrite listObjects_unfold by (intros null; discriminate).
  cbn [fst]. rewrite filter_all. unfold indexOf. cbn [TelegramStorage.localStorage].
  now rewrite sort_fixed.
Qed.

Lemma listObjects_keeps_order_of_ordered_index_witness :
  fst (TelegramStorage.listObjects None
         {| TelegramStorage.localStorage := TelegramStorage.Saved threeRecords;
            TelegramStorage.trace := [];
            TelegramStorage.room := true |})
  = Ok (map TelegramStorage.toEntry threeRecords).
Proof.
  apply listObjects_keeps_order_of_ordered_index.
  unfold threeRecords.
  repeat (constructor; try (unfold newerOrSame; simpl; lia)).
Defined.

(** ** More on [FileManager] *)
Section ManagerFacts.
Import JsString FileManager.

Lemma lowerChar_dot (x : ascii) : lowerChar x = "."%char -> x = "."%char.
Proof.
  destruct x as [[] [] [] [] [] [] [] []]; vm_compute; congruence.
Qed.

Lemma lowerChar_twice (x : ascii) : lowerChar (lowerChar x) = lowerChar x.
Proof.
  destruct x as [[] [] [] [] [] [] [] []]; reflexivity.
Qed.

Lemma toLowerCase_twice (s : string) : toLowerCase (toLowerCase s) = toLowerCase s.
Proof.
  unfold toLowerCase. rewrite chars_str, map_map. f_equal.
  apply map_ext. intros x. apply lowerChar_twice.
Qed.

Lemma toLowerCase_no_dot (s : string) :
  ~ In "."%char (chars s) -> ~ In "."%char (chars (toLowerCase s)).
Proof.
  intros H Hin. apply H. unfold toLowerCase in Hin. rewrite chars_str in Hin.
  apply in_map_iff in Hin. destruct Hin as [x [Hx Hin]].
  apply lowerChar_dot in Hx. now subst.
Qed.

Lemma collapseRuns_In (c x : ascii) (l : list ascii) :
  In x (collapseRuns c l) -> In x l.
Proof.
  induction l as [|y r IH]; [intros []|]. simpl.
  destruct (Ascii.eqb y c && headIs c r).
  - intros H. right. now apply IH.
  - intros [<-|H]; [now left | right; now apply IH].
Qed.

Lemma trimRuns_In (c x : ascii) (l : list ascii) :
  In x (trimRuns c l) -> In x l.
Proof.
  intros H. destruct (trimRuns_segment c l) as [pre [suf E]].
  rewrite E. apply in_or_app. right. apply in_or_app. now left.
Qed.

Lemma sanitize_no_dot (s : string) :
  ~ In "."%char (chars s) -> ~ In "."%char (chars (sanitize s)).
Proof.
  intros H Hin. unfold sanitize, sanitizeChars in Hin. rewrite chars_str in Hin.
  apply trimRuns_In, collapseRuns_In, in_map_iff in Hin.
  destruct Hin as [x [Hx Hin]].
  destruct (isNameChar x); [subst x; contradiction | discriminate].
Qed.

Lemma first_segment_no_sep (c : ascii) (s : string) :
  ~ In c (chars (first (split c s))).
Proof.
  destruct (before_first_sep c (chars s)) as [Hno|[a [f [E Ha]]]].
  - now rewrite split_no_sep.
  - rewrite <- (str_chars s), E, first_split_before_sep by exact Ha.
    now rewrite chars_str.
Qed.

Lemma last_segment_no_sep (c : ascii) (s : string) :
  ~ In c (chars (pop (split c s))).
Proof.
  destruct (after_last_sep c (chars s)) as [Hno|[a [f [E Hf]]]].
  - now rewrite split_no_sep.
  - rewrite <- (str_chars s), E, pop_split_after_sep by exact Hf.
    now rewrite chars_str.
Qed.

Lemma uint_digits (d : Decimal.uint) :
  List.Forall (fun ch => isDigit ch = true) (chars (NilEmpty.string_of_uint d)).
Proof. induction d; simpl; constructor; auto. Qed.

Lemma ofN_no_dot (n : N) : ~ In "."%char (chars (ofN n)).
Proof.
  intros Hin. unfold ofN, NilZero.string_of_uint in Hin.
  assert (H : List.Forall (fun ch => isDigit ch = true)
                (chars match N.to_uint n with
                       | Decimal.Nil => "0"
                       | _ => NilEmpty.string_of_uint (N.to_uint n)
                       end)).
  { destruct (N.to_uint n) eqn:E; try (rewrite <- E; apply uint_digits).
    repeat constructor. }
  rewrite List.Forall_forall in H. specialize (H _ Hin). discriminate.
Qed.

Lemma random_token_no_dot (digits : list nat) :
  ~ In "."%char (chars (substring 2 10 (randomToString36 digits))).
Proof.
  intros Hin.
  assert (E : chars (substring 2 10 (randomToString36 digits))
              = firstn 8 (map digitChar digits)).
  { unfold substring. rewrite chars_str. destruct digits as [|d ds]; [reflexivity|].
    unfold randomToString36. now rewrite chars_str. }
  rewrite E in Hin.
  assert (Hm : In "."%char (map digitChar digits)).
  { rewrite <- (firstn_skipn 8 (map digitChar digits)). apply in_or_app. now left. }
  apply in_map_iff in Hm. destruct Hm as [d [Hd _]].
  pose proof (digitChar_alphanumeric d) as Ha. rewrite Hd in Ha. discriminate.
Qed.

(** The generated name, cut at its only dot. *)
Lemma generateFilename_parts (rule : NameRule) (env : Environment) (filename : string) :
  exists base,
    _generateFilename rule env filename
    = base +:+ "." +:+ toLowerCase (Spec.extension filename)
    /\ ~ In "."%char (chars base)
    /\ ~ In "."%char (chars (toLowerCase (Spec.extension filename)))
    /\ (rule = original -> base = sanitize (first (split "." filename))).
Proof.
  unfold _generateFilename, Spec.extension. eexists. split; [reflexivity|].
  split; [|split].
  - destruct rule.
    + apply ofN_no_dot.
    + apply random_token_no_dot.
    + apply sanitize_no_dot, first_segment_no_sep.
  - apply toLowerCase_no_dot, last_segment_no_sep.
  - now intros ->.
Qed.

Lemma dropLeading_fixed (c : ascii) (l : list ascii) :
  headIs c l = false -> dropLeading c l = l.
Proof. destruct l as [|x r]; [reflexivity|]. simpl. now intros ->. Qed.

End ManagerFacts.

(** X13: under every naming rule the generated filename holds exactly one
    ['.']: a base without dots, the dot, and an extension without dots,
    which is the text after the final ['.'] of the generated name; for an
    ASCII name it is the lower-cased extension of the original name (the
    whole name when it has no ['.']); so no [..] can reach the path
    through the filename. *)
Theorem generateFilename_single_dot
    (rule : FileManager.NameRule) (env : FileManager.Environment)
    (filename : string) :
  exists base ext,
    FileManager._generateFilename rule env filename = base +:+ "." +:+ ext
    /\ ~ In "."%char (JsString.chars base)
    /\ ~ In "."%char (JsString.chars ext)
    /\ (Spec.isAscii filename -> ext = Spec.extensionOrName filename)
    /\ Spec.afterFinal "." (FileManager._generateFilename rule env filename)
       = Some ext.
Proof.
  destruct (generateFilename_parts rule env filename) as [base [E [Hb [He _]]]].
  exists base, (JsString.toLowerCase (Spec.extension filename)).
  split; [exact E|]. split; [exact Hb|]. split; [exact He|]. split.
  - intros _. apply extension_of_code.
  - rewrite E. change ("." +:+ JsString.toLowerCase (Spec.extension filename))
      with (String "."%char (JsString.toLowerCase (Spec.extension filename))).
    now apply afterFinal_some.
Qed.

(** X14: under the rule [original] a generated filename is generated
    again as itself, whatever the date. *)
Theorem generateFilename_original_idempotent
    (env env' : FileManager.Environment) (filename : string) :
  FileManager._generateFilename FileManager.original env'
    (FileManager._generateFilename FileManager.original env filename)
  = FileManager._generateFilename FileManager.original env filename.
Proof.
  destruct (generateFilename_parts FileManager.original env filename)
    as [base [E [Hb [He Hbase]]]].
  rewrite E. pose proof (split_two "." base _ Hb He) as Hs. simpl in Hs.
  unfold FileManager._generateFilename at 1. rewrite Hs.
  unfold JsString.first, JsString.pop. simpl.
  rewrite toLowerCase_twice, (Hbase eq_refl), sanitize_idempotent.
  reflexivity.
Qed.

(** X15: the sanitized base name holds only characters of
    [[a-zA-Z0-9-_.]], no two dashes in a row and no dash at either end,
    and sanitizing it again changes nothing. *)
Theorem sanitize_normal_form (s : string) :
  sanitized (JsString.chars (FileManager.sanitize s))
  /\ FileManager.sanitize (FileManager.sanitize s) = FileManager.sanitize s.
Proof. split; [apply sanitize_shape | apply sanitize_idempotent]. Qed.

(** X16: a normalized path has no two separators in a row and none at
    either end, and normalizing it again changes nothing; so does every
    path [generatePath] returns. *)
Theorem normalizePath_fixed_point (path : string) :
  let out := JsString.chars (FileManager._normalizePath path) in
  Spec.noRepeat "/" out
  /\ JsString.headIs "/" out = false
  /\ JsString.headIs "/" (rev out) = false
  /\ FileManager._normalizePath (FileManager._normalizePath path)
     = FileManager._normalizePath path
  /\ forall cfg env filename,
       FileManager._normalizePath (FileManager.generatePath cfg env filename)
       = FileManager.generatePath cfg env filename.
Proof.
  cbv zeta.
  assert (Hfix : forall p,
    FileManager._normalizePath (FileManager._normalizePath p)
    = FileManager._normalizePath p).
  { intros p. destruct (normalizePath_normal p) as [Hrep [Hhead Hlast]].
    unfold FileManager._normalizePath at 1.
    rewrite (collapseRuns_fixed _ _ Hrep), (dropLeading_fixed _ _ Hhead).
    unfold JsString.dropTrailing.
    rewrite (dropLeading_fixed _ _ Hlast), rev_involutive. apply str_chars. }
  destruct (normalizePath_normal path) as [Hrep [Hhead Hlast]].
  repeat (split; [assumption|]). split; [apply Hfix|].
  intros cfg env filename. unfold FileManager.generatePath. apply Hfix.
Qed.

(** X17: [processFile] returns a file or an error, never both and never
    neither; the compressor is called at most once, and exactly for the
    files that pass validation and whose type starts with [image/]; any
    other file that passes validation is returned as it is. *)
Theorem processFile_outcomes
    (compress : FileManager.File -> Result FileManager.File)
    (cfg : FileManager.Config) (f : FileManager.File) :
  let processed := fst (FileManager.processFile compress cfg f) in
  let calls := snd (FileManager.processFile compress cfg f) in
  (FileManager.file processed = None <-> FileManager.error processed <> None)
  /\ (calls = [f] <->
      FileManager.validateFile cfg f = FileManager.Valid
      /\ Spec.hasPrefix "image/" (FileManager.type f))
  /\ (calls <> [f] -> calls = [])
  /\ (FileManager.validateFile cfg f = FileManager.Valid ->
      ~ Spec.hasPrefix "image/" (FileManager.type f) ->
      processed = {| FileManager.file := Some f; FileManager.error := None |}).
Proof.
  cbv zeta. unfold FileManager.processFile.
  pose proof (startsWith_spec (FileManager.type f) "image/") as Hs.
  destruct (FileManager.validateFile cfg f) as [|m]; simpl.
  - destruct (JsString.startsWith (FileManager.type f) "image/") eqn:Ei.
    + destruct (compress f) as [g|e]; simpl;
        (split; [split; [discriminate || (intros _; discriminate)
                        | intros H; try reflexivity; exfalso; now apply H]|]);
        (split; [split; [intros _; split; [reflexivity | now apply Hs]
                        | reflexivity]|]);
        (split; [intros H; now contradiction H|]);
        intros _ Hn; exfalso; apply Hn; now apply Hs.
    + simpl. split; [split; [discriminate | intros H; exfalso; now apply H]|].
      split; [split; [discriminate | intros [_ H]; apply Hs in H; discriminate]|].
      split; [reflexivity|]. reflexivity.
  - split; [split; [intros _; discriminate | reflexivity]|].
    split; [split; [discriminate | intros [H _]; discriminate]|].
    split; [reflexivity | discriminate].
Qed.

(** ** Construction of managers and adapters *)
Section ConstructionFacts.
Import StorageServices Construction.

Lemma truthy_type_known (type : string) :
  truthyLookup (getProperty (Own STORAGE_SERVICES) type) = true ->
  In type knownTypes \/ In type objectPrototypeMembers.
Proof.
  intros H.
  destruct (in_dec string_dec type knownTypes) as [Hk|Hk]; [now left|].
  destruct (in_dec string_dec type objectPrototypeMembers) as [Hp|Hp]; [now right|].
  rewrite (unknown_type_lookup type Hk Hp) in H. discriminate.
Qed.

Lemma inherited_type_throws (type : string) (config : option (gmap string string)) :
  In type objectPrototypeMembers ->
  exists e, validateStorageConfig type config = Throw e.
Proof.
  intros Hin. simpl in Hin.
  repeat (destruct Hin as [<-|Hin]; [eexists; reflexivity|]). destruct Hin.
Qed.

(** A config that [validate] accepts is for one of the four services. *)
Lemma validate_valid_known (type : string) (config : option StorageConfig)
    (v : Validation) :
  validate type config = Ok v -> isValid v = true -> In type knownTypes.
Proof.
  intros Hv Hvalid.
  assert (H : exists c, validateStorageConfig type c = Ok v).
  { unfold validate in Hv. destruct config as [c|]; [|eauto].
    destruct (getRequiredFields type); [|eauto].
    destruct (_ && _); [discriminate | eauto]. }
  destruct H as [c Hc].
  destruct (truthyLookup (getProperty (Own STORAGE_SERVICES) type)) eqn:Et.
  - destruct (truthy_type_known type Et) as [Hk|Hp]; [exact Hk|].
    destruct (inherited_type_throws type c Hp) as [e He]. congruence.
  - unfold validateStorageConfig in Hc. rewrite Et in Hc. simpl in Hc.
    injection Hc as <-. discriminate.
Qed.

Lemma known_type_class (type : string) :
  In type knownTypes ->
  truthyLookup (getProperty (Own STORAGE_CLASSES) type) = true.
Proof. intros [<-|[<-|[<-|[<-|[]]]]]; reflexivity. Qed.

(** How [createStorage] ends. *)
Lemma createStorage_run (D : Defaults) (type : string)
    (config : option StorageConfig) :
  (exists e, createStorage D type config = Throw e /\ e <> "不支持的存储类型")
  \/ exists c v,
       config = Some c
       /\ validate type config = Ok v /\ isValid v = true
       /\ In type knownTypes
       /\ createStorage D type config
          = Ok {| storageClass := getProperty (Own STORAGE_CLASSES) type;
                  options := spread (settings c !! type);
                  fileManager :=
                    constructor D
                      {| uploadPath := configUploadPath c;
                         nameRule := configNameRule c;
                         allowedTypes := None;
                         maxFileSize := None |} |}.
Proof.
  unfold createStorage.
  destruct (validate type config) as [v|e] eqn:Ev.
  - destruct (isValid v) eqn:Evalid; cbn [negb].
    + pose proof (validate_valid_known type config v Ev Evalid) as Hk.
      rewrite (known_type_class type Hk). cbn [negb].
      destruct config as [c|].
      * right. exists c, v. repeat split; assumption || reflexivity.
      * left. eexists. split; [reflexivity | discriminate].
    + left. exists (message v). split; [reflexivity|].
      assert (H : exists c, validateStorageConfig type c = Ok v).
      { unfold validate in Ev. destruct config as [c|]; [|eauto].
        destruct (getRequiredFields type); [|eauto].
        destruct (_ && _); [discriminate | eauto]. }
      destruct H as [c Hc]. unfold validateStorageConfig in Hc.
      destruct (negb _); [injection Hc as <-; discriminate|].
      destruct (getRequiredFields type); [|discriminate].
      destruct c as [c|]; [|injection Hc as <-; discriminate].
      destruct (forallb _ _); [injection Hc as <-; discriminate|].
      destruct (_ <? _)%nat; injection Hc as <-; discriminate.
  - left. exists e. split; [reflexivity|].
    unfold validate in Ev.
    assert (H : e = "TypeError: config[field]?.trim is not a function"
                \/ exists c, validateStorageConfig type c = Throw e).
    { destruct config as [c|]; [|eauto].
      destruct (getRequiredFields type); [|eauto].
      destruct (_ && _); [injection Ev as <-; now left | eauto]. }
    destruct H as [->|[c Hc]]; [discriminate|].
    unfold validateStorageConfig in Hc.
    destruct (negb _); [discriminate|].
    unfold getRequiredFields in Hc.
    destruct (negb _); [destruct c; discriminate|].
    destruct (getProperty _ "fields") as [[]| |];
      try (injection Hc as <-; discriminate).
    destruct c as [c|]; [|discriminate].
    destruct (forallb _ _); [discriminate|].
    destruct (_ <? _)%nat; discriminate.
Qed.

End ConstructionFacts.

(** X18: [createStorage] never fails with ['不支持的存储类型']: a type
    without a storage class has already been turned away by the
    validation, with the validation's own message or a [TypeError]. *)
Theorem createStorage_never_unsupported
    (D : Construction.Defaults) (type : string)
    (config : option Construction.StorageConfig) :
  Construction.createStorage D type config <> Throw "不支持的存储类型".
Proof.
  destruct (createStorage_run D type config) as [[e [E He]]|[c [v [_ [_ [_ [_ E]]]]]]];
    rewrite E; [|discriminate].
  intros H. injection H as ->. now apply He.
Qed.



Section ConfiguredFacts.
Import StorageServices Construction.

Lemma spread_text_nonempty (s : string) :
  JsString.truthy s = true -> spread (Some (Text s)) <> ∅.
Proof.
  unfold JsString.truthy. intros H. apply negb_true_iff, String.eqb_neq in H.
  unfold spread. destruct s as [|c s]; [contradiction|].
  unfold JsString.chars. simpl. apply insert_non_empty.
Qed.

Lemma spread_section_nonempty (props : gmap string string) :
  Nat.eqb (size props) 0 = false -> spread (Some (Section props)) <> ∅.
Proof.
  intros H Hempty. simpl in Hempty. subst props.
  rewrite map_size_empty in H. discriminate.
Qed.

End ConfiguredFacts.

(** X20: whenever [isStorageConfigured] answers true, [createStorage]
    succeeds on the same type and config, and the adapter it builds is
    given at least one option. *)
Theorem isStorageConfigured_createStorage
    (D : Construction.Defaults) (type : string)
    (config : option Construction.StorageConfig) :
  Construction.isStorageConfigured type config = Ok true ->
  exists made,
    Construction.createStorage D type config = Ok made
    /\ Construction.options made <> ∅.
Proof.
  unfold Construction.isStorageConfigured. intros H.
  destruct config as [c|]; [|discriminate].
  destruct (negb (JsString.truthy type)); [discriminate|].
  destruct (Construction.validate type (Some c)) as [v|e] eqn:Ev; [|discriminate].
  injection H as H. apply andb_true_iff in H. destruct H as [Hvalid Hsection].
  destruct (createStorage_run D type (Some c))
    as [[e [E He]]|[c' [v' [Hc [Hv' [_ [_ E]]]]]]].
  - exfalso. unfold Construction.createStorage in E. rewrite Ev, Hvalid in E.
    cbn [negb] in E.
    rewrite (known_type_class type (validate_valid_known _ _ _ Ev Hvalid)) in E.
    discriminate.
  - injection Hc as <-. eexists. split; [exact E|]. cbn.
    destruct (Construction.settings c !! type) as [[s|props]|];
      [now apply spread_text_nonempty
      | apply spread_section_nonempty; now apply negb_true_iff
      | discriminate].
Qed.

Lemma isStorageConfigured_createStorage_witness :
  exists made,
    Construction.createStorage sampleDefaults "telegram" (Some telegramConfig)
    = Ok made
    /\ Construction.options made <> ∅.
Proof.
  apply isStorageConfigured_createStorage. reflexivity.
Defined.

(** X21: the options [new FileManager] treats as missing: an empty
    [uploadPath] or [nameRule] and a [maxFileSize] of zero give way to
    the defaults, every rule name other than ['timestamp'] and ['random']
    acts as ['original'], and an empty [allowedTypes] array is kept, so
    that the manager then accepts no file at all. *)
Theorem constructor_falsy_options
    (D : Construction.Defaults) (config : Construction.Options) :
  let manager := Construction.constructor D config in
  (Construction.uploadPath config = Some "" ->
   FileManager.uploadPath manager = Construction.defaultUploadPath D)
  /\ (Construction.maxFileSize config = Some 0%Q ->
      FileManager.maxFileSize manager = Construction.defaultMaxFileSize D)
  /\ (forall rule,
        Construction.nameRule config = Some rule ->
        rule <> "" -> rule <> "timestamp" -> rule <> "random" ->
        FileManager.nameRule manager = FileManager.original)
  /\ (Construction.allowedTypes config = Some [] ->
      forall f, FileManager.validateFile manager f <> FileManager.Valid).
Proof.
  cbv zeta. unfold Construction.constructor. cbn. repeat split.
  - now intros ->.
  - now intros ->.
  - intros rule -> H0 H1 H2. unfold Construction.orString, JsString.truthy.
    apply String.eqb_neq in H0, H1, H2. rewrite H0. cbn [negb].
    unfold Construction.nameRuleOf. now rewrite H1, H2.
  - intros -> f. unfold FileManager.validateFile. cbn.
    destruct (FileManager.gtb _ _); discriminate.
Qed.

(** X22: [createStorage] validates the top level of the config only: for
    a known type, a config that holds nothing but the section of that
    type is accepted whatever the section holds, even when it is missing;
    a Telegram adapter built without section sends its requests to
    [.../botundefined]. *)
Theorem createStorage_section_unchecked
    (D : Construction.Defaults) (type : string) (c : Construction.StorageConfig) :
  In type knownTypes ->
  (forall field v, Construction.settings c !! field = Some v -> field = type) ->
  exists made,
    Construction.createStorage D type (Some c) = Ok made
    /\ Construction.options made
       = Construction.spread (Construction.settings c !! type)
    /\ (type = "telegram" -> Construction.settings c !! "telegram" = None ->
        TelegramApi.baseURL (Construction.telegramStorage made)
        = "https://api.telegram.org/botundefined").
Proof.
  intros Hk Honly.
  assert (Hnone : forall field, field <> type ->
            Construction.settings c !! field = None).
  { intros field Hne. destruct (Construction.settings c !! field) eqn:E;
      [|reflexivity]. apply Honly in E. contradiction. }
  assert (Htexts : forall field, field <> type ->
            Construction.texts c !! field = None).
  { intros field Hne. unfold Construction.texts.
    rewrite lookup_omap, (Hnone field Hne). reflexivity. }
  assert (Hv : Construction.validate type (Some c)
               = Ok {| StorageServices.isValid := true;
                       StorageServices.message := "配置为空" |}).
  { unfold Construction.validate, Construction.isSection.
    destruct Hk as [<-|[<-|[<-|[<-|[]]]]];
      cbn -[Construction.texts Construction.settings lookup];
      rewrite !Hnone by discriminate;
      cbn -[Construction.texts lookup];
      unfold StorageServices.validateStorageConfig, StorageServices.isBlank;
      cbn -[Construction.texts lookup];
      rewrite !Htexts by discriminate; reflexivity. }
  unfold Construction.createStorage. rewrite Hv. cbn [negb StorageServices.isValid].
  rewrite (known_type_class type Hk). cbn [negb].
  eexists. split; [reflexivity|]. split; [reflexivity|].
  intros -> Hmissing. cbn. rewrite Hmissing. reflexivity.
Qed.

Lemma createStorage_section_unchecked_witness :
  exists made,
    Construction.createStorage sampleDefaults "telegram" (Some telegramConfig)
    = Ok made
    /\ Construction.options made
       = Construction.spread (Construction.settings telegramConfig !! "telegram")
    /\ ("telegram" = "telegram" ->
        Construction.settings telegramConfig !! "telegram" = None ->
        TelegramApi.baseURL (Construction.telegramStorage made)
        = "https://api.telegram.org/botundefined").
Proof.
  apply createStorage_section_unchecked.
  - right. right. right. now left.
  - intros field v H. unfold telegramConfig in H. cbn in H.
    apply lookup_singleton_Some in H. now destruct H.
Defined.

(** ** [ImageHelper.deleteImage] *)

(** X23: [deleteImage] calls [storage.delete] only after the user has
    confirmed; a dismissal with ['cancel'] shows nothing; when the
    callback is left out or returns, at most one message is shown and the
    promise resolves; [onSuccess] runs only after the success message,
    and when it throws an error, or is not a function, the error message
    follows the success message. *)
Theorem deleteImage_outcomes
    (confirm : option string)
    (storageDelete : string -> TelegramStorage.M (Result unit))
    (imageKey : option string) (onSuccess : ImageHelper.Callback)
    (w : TelegramStorage.World) :
  let outcome :=
    fst (ImageHelper.deleteImage confirm storageDelete imageKey onSuccess w) in
  let events := ImageHelper.events outcome in
  let w' := snd (ImageHelper.deleteImage confirm storageDelete imageKey onSuccess w) in
  let success := ImageHelper.SuccessMessage "删除成功" in
  (confirm <> None -> w' = w)
  /\ (confirm = Some "cancel" -> events = [] /\ ImageHelper.settled outcome = Ok tt)
  /\ (onSuccess = ImageHelper.Omitted \/ onSuccess = ImageHelper.Function None ->
      List.length (List.filter isMessage events) <= 1
      /\ ImageHelper.settled outcome = Ok tt)
  /\ List.length (List.filter isMessage events) <= 2
  /\ (In ImageHelper.OnSuccess events ->
      confirm = None
      /\ exists throws rest,
           onSuccess = ImageHelper.Function throws
           /\ events = [success; ImageHelper.OnSuccess] ++ rest
           /\ (throws = None -> rest = []))
  /\ (forall m, onSuccess = ImageHelper.Function (Some (ImageHelper.ErrorObject m)) ->
      In success events ->
      events = [success; ImageHelper.OnSuccess;
                ImageHelper.ErrorMessage ("删除失败：" +:+ m)])
  /\ (onSuccess = ImageHelper.NotFunction -> In success events ->
      events = [success;
                ImageHelper.ErrorMessage "删除失败：onSuccess is not a function"])
  /\ (confirm = None -> imageKey = None -> w' = w /\ In success events).
Proof.
  cbv zeta. unfold ImageHelper.deleteImage.
  destruct confirm as [action|];
    [|destruct imageKey as [key|];
      [destruct (JsString.truthy key);
       [unfold TelegramStorage.bind;
        destruct (storageDelete key w) as [[u|e] w1]|]|]];
  unfold TelegramStorage.ret, ImageHelper.finish, ImageHelper.reportFailure;
  cbn [fst snd];
  try destruct (String.eqb_spec action "cancel");
  try (destruct onSuccess as [|[[m|text|]|]|];
       try destruct (String.eqb text "cancel"));
  cbn [ImageHelper.events ImageHelper.settled app List.filter isMessage
       List.length];
  repeat match goal with |- _ /\ _ => split end; intros;
  repeat match goal with
         | H : In _ _ |- _ =>
             simpl in H; try (exfalso; exact H); decompose [or] H; clear H
         end;
  try lia; try reflexivity; try discriminate; try congruence;
  try contradiction; try (split; [lia | reflexivity]);
  try (split; reflexivity);
  try (split; [reflexivity | now left]);
  try (split; [reflexivity|]; eexists _, _;
       split; [reflexivity|]; split; [reflexivity|];
       first [reflexivity | discriminate]).
  all: try (match goal with H : _ \/ _ |- _ => destruct H end; discriminate).
Qed.

(** X24: with the Telegram adapter as storage, over a store that holds
    an array of records, no text, or text that cannot be parsed, and
    with a callback that is left out or returns, a confirmed
    [deleteImage] of an image with a key ends with the success message
    and no error message, issues no request, and leaves no record with
    that key in any later listing; over a store that holds another
    value, it shows the error message of the [TypeError] that [delete]
    throws, and nothing else. *)
Theorem deleteImage_from_telegram
    (key : string) (onSuccess : ImageHelper.Callback)
    (w : TelegramStorage.World) :
  key <> "" ->
  let outcome :=
    fst (ImageHelper.deleteImage None TelegramStorage.delete (Some key) onSuccess w) in
  let w' :=
    snd (ImageHelper.deleteImage None TelegramStorage.delete (Some key) onSuccess w) in
  ((forall null,
      TelegramStorage.localStorage w <> TelegramStorage.NotArray null) ->
   onSuccess = ImageHelper.Omitted \/ onSuccess = ImageHelper.Function None ->
   outcome
   = {| ImageHelper.events :=
          ImageHelper.SuccessMessage "删除成功"
          :: match onSuccess with
             | ImageHelper.Function _ => [ImageHelper.OnSuccess]
             | _ => []
             end;
        ImageHelper.settled := Ok tt |}
   /\ List.filter isFetch (TelegramStorage.trace w')
      = List.filter isFetch (TelegramStorage.trace w)
   /\ forall prefix, exists entries,
        fst (TelegramStorage.listObjects prefix w') = Ok entries
        /\ forall entry, In entry entries ->
             TelegramStorage.Entry.key entry <> key)
  /\ (forall null,
        TelegramStorage.localStorage w = TelegramStorage.NotArray null ->
        outcome
        = {| ImageHelper.events :=
               [ImageHelper.ErrorMessage
                  ("删除失败：" +:+ TelegramStorage.typeError null "index" "filter")];
             ImageHelper.settled := Ok tt |}
        /\ w' = w).
Proof.
  intros Hne. cbv zeta. unfold ImageHelper.deleteImage.
  assert (Ht : JsString.truthy key = true).
  { unfold JsString.truthy. apply negb_true_iff, String.eqb_neq. exact Hne. }
  rewrite Ht. unfold TelegramStorage.bind. split.
  - intros Hw Hcb.
    pose proof (delete_ok key w Hw) as Hok.
    pose proof (delete_requests key w) as Hreq.
    pose proof (delete_index key w) as Hidx.
    assert (Hw' : forall null,
              TelegramStorage.localStorage (snd (TelegramStorage.delete key w))
              <> TelegramStorage.NotArray null).
    { intros null E. apply delete_store_kind in E. now apply (Hw null). }
    destruct (TelegramStorage.delete key w) as [outcome w1].
    cbn [fst snd] in *. subst outcome.
    unfold TelegramStorage.ret. cbn [fst snd].
    split; [destruct Hcb as [-> | ->]; reflexivity|].
    split; [exact Hreq|].
    intros prefix. eexists. split.
    + rewrite listObjects_unfold by exact Hw'. reflexivity.
    + intros entry H. apply in_map_iff in H. destruct H as [item [<- Hitem]].
      apply (Permutation_in _ (sort_perm _ _)) in Hitem.
      apply filter_In in Hitem. destruct Hitem as [Hitem _].
      rewrite Hidx in Hitem. apply filter_In in Hitem.
      destruct Hitem as [_ Hk]. apply negb_true_iff, String.eqb_neq in Hk.
      exact Hk.
  - intros null E. rewrite (delete_throws key w null E).
    unfold TelegramStorage.ret. cbn [fst snd]. split; reflexivity.
Qed.

Lemma deleteImage_from_telegram_witness :
  fst (ImageHelper.deleteImage None TelegramStorage.delete
         (Some "2024/03/05/cat.png") (ImageHelper.Function None) uploadedWorld)
  = {| ImageHelper.events :=
         [ImageHelper.SuccessMessage "删除成功"; ImageHelper.OnSuccess];
       ImageHelper.settled := Ok tt |}.
Proof.
  refine (proj1 (proj1 (deleteImage_from_telegram "2024/03/05/cat.png"
                          (ImageHelper.Function None) uploadedWorld _) _ _)).
  - discriminate.
  - intros null. discriminate.
  - now right.
Defined.

(** ** Witnesses for properties stated earlier *)


Lemma accessors_protect_top_level_witness :
  Statics.set
    (snd (Statics.getSupportedStorages (fst Statics.loaded) (snd Statics.loaded)))
    (fst (Statics.getSupportedStorages (fst Statics.loaded) (snd Statics.loaded)))
    "s3" (Statics.VString "gone") !! 25
  = snd Statics.loaded !! 25.
Proof.
  refine (proj1 (proj2 (proj2
    (accessors_protect_top_level (fst Statics.loaded) (snd Statics.loaded)
       "s3" (Statics.VString "gone") 25 _)))).
  vm_compute. lia.
Defined.
